(** * A shallow embedding of the finance ledger of [main.py]

    The ledger keeps income and expense records in memory, rewrites a text
    file after every mutation and parses that file again at start-up.  The
    classes [Record] and [FinanceTracker] are embedded below: Python strings
    are lists of code points, the methods are functions in a small
    state-and-exception monad over the tracker's records, the backing file
    and the console.

    Three things the program calls are the Python runtime's and not the
    program's: [float(s)], [str(x)] with the float arithmetic behind [sum]
    and [-], and the table of decimal digits behind the regular expression
    class [\d].  They are the fields of the class [Runtime]; every
    definition and every general theorem is stated for an arbitrary
    [Runtime], and [decimal_runtime] is one instance on which the model
    can be run.

    The menu of [main] comes after the tracker: it reads its answers from
    the standard input, and its loops are given fuel.  [int(s)] and the
    comparison of a float with [0] are two more pieces of the runtime,
    the class [Builtins]. *)

From Stdlib Require Import String Ascii.
From stdpp Require Import base numbers list option sorting.

Local Open Scope N_scope.

(** ** Python strings *)

(** A [str] is a sequence of Unicode code points. *)
Definition pystr := list N.

(** String literals of this file are written as UTF-8 text and decoded to
    code points (one- and two-byte sequences: Latin and Cyrillic). *)
Fixpoint utf8_decode (bs : list N) : pystr :=
  match bs with
  | [] => []
  | b :: r =>
      if b <? 128 then b :: utf8_decode r
      else match r with
           | c :: r' => ((b - 192) * 64 + (c - 128)) :: utf8_decode r'
           | [] => []
           end
  end.

Definition utf8 (s : string) : pystr :=
  utf8_decode (map N_of_ascii (list_ascii_of_string s)).

(** [c.isspace()]: the code points that [str.strip()] removes. *)
Definition isspace (c : N) : bool :=
  ((9 <=? c) && (c <=? 13)) || ((28 <=? c) && (c <=? 32))
  || (c =? 133) || (c =? 160) || (c =? 5760)
  || ((8192 <=? c) && (c <=? 8202))
  || (c =? 8232) || (c =? 8233) || (c =? 8239) || (c =? 8287) || (c =? 12288).

Fixpoint lstrip (s : pystr) : pystr :=
  match s with
  | [] => []
  | c :: r => if isspace c then lstrip r else s
  end.

Definition rstrip (s : pystr) : pystr := rev (lstrip (rev s)).

(** [s.strip()] *)
Definition strip (s : pystr) : pystr := rstrip (lstrip s).

(** [s.startswith(p)] *)
Fixpoint startswith (s p : pystr) {struct p} : bool :=
  match p, s with
  | [], _ => true
  | _ :: _, [] => false
  | a :: p', b :: s' => (a =? b) && startswith s' p'
  end.

(** [q in s] for two strings: [q] occurs in [s] at some position. *)
Fixpoint contains (s q : pystr) : bool :=
  startswith s q ||
  match s with
  | [] => false
  | _ :: s' => contains s' q
  end.

(** [s.split(sep)] for a non-empty separator: the pieces between the
    non-overlapping occurrences of [sep], found from the left.  [skip]
    counts the characters of a matched separator still to be dropped and
    [cur] is the piece being collected, last character first. *)
Fixpoint split_from (sep s : pystr) (skip : nat) (cur : pystr) : list pystr :=
  match s with
  | [] => [rev cur]
  | c :: r =>
      match skip with
      | S k => split_from sep r k cur
      | O =>
          if startswith s sep
          then rev cur :: split_from sep r (length sep - 1) []
          else split_from sep r 0 (c :: cur)
      end
  end.

Definition split (sep s : pystr) : list pystr := split_from sep s 0 [].

(** Reading a text file opened with [open(path, 'r')]: universal newlines
    turn ["\r\n"] and ["\r"] into ["\n"], and iterating the file yields the
    lines with their terminator, the last one possibly without. *)
Fixpoint universal_newlines (s : pystr) : pystr :=
  match s with
  | [] => []
  | c :: r =>
      if c =? 13
      then 10 :: match r with
                 | d :: r' => if d =? 10 then universal_newlines r'
                              else universal_newlines r
                 | [] => []
                 end
      else c :: universal_newlines r
  end.

Fixpoint readlines (s : pystr) : list pystr :=
  match s with
  | [] => []
  | c :: r =>
      if c =? 10 then [c] :: readlines r
      else match readlines r with
           | [] => [[c]]
           | l :: ls => (c :: l) :: ls
           end
  end.

Definition file_lines (text : pystr) : list pystr :=
  readlines (universal_newlines text).

(** ** The runtime the program relies on *)

(** What [main.py] takes from the interpreter and does not define:
    - [float_of_str s] is [float(s)], [None] when it raises [ValueError];
    - [str_of_float x] is [str(x)], which is also how an f-string and
      [print] show a float;
    - [float_zero] and [float_sub] are [float(0)] and [-] on floats;
    - [float_sum xs] is [sum(xs)] for a non-empty sequence of floats (how
      the partial sums are rounded is the interpreter's choice);
    - [decimal_digit c] is the value of the code point [c] when the regular
      expression class [\d] accepts it. *)
Class Runtime := {
  pyfloat : Type;
  float_of_str : pystr -> option pyfloat;
  str_of_float : pyfloat -> pystr;
  float_zero : pyfloat;
  float_sum : list pyfloat -> pyfloat;
  float_sub : pyfloat -> pyfloat -> pyfloat;
  decimal_digit : N -> option N
}.

(** The exceptions that occur in the methods of [FinanceTracker].
    [FileNotFoundError] is caught where it is raised and never escapes. *)
Inductive exn := ValueError | IndexError | AttributeError.

Inductive outcome (A : Type) :=
| Return (a : A)
| Raise (e : exn).
Arguments Return {A} a.
Arguments Raise {A} e.

(** ** Text constants of the program *)

Definition NL : pystr := [10].
Definition SEP : pystr := Eval vm_compute in utf8 ": ".
Definition DATE_PREFIX : pystr := Eval vm_compute in utf8 "Дата:".
Definition CATEGORY_PREFIX : pystr := Eval vm_compute in utf8 "Категория:".
Definition AMOUNT_PREFIX : pystr := Eval vm_compute in utf8 "Сумма:".
Definition DESCRIPTION_PREFIX : pystr := Eval vm_compute in utf8 "Описание:".
Definition INCOME : pystr := Eval vm_compute in utf8 "Доход".
Definition EXPENSE : pystr := Eval vm_compute in utf8 "Расход".
Definition BAD_INDEX : pystr :=
  Eval vm_compute in utf8 "Некорректный индекс записи.".
Definition BALANCE_TEXT : pystr := Eval vm_compute in utf8 "Текущий баланс: ".
Definition INCOME_TEXT : pystr := Eval vm_compute in utf8 "Общий доход: ".
Definition EXPENSE_TEXT : pystr := Eval vm_compute in utf8 "Общий расход: ".
Definition FOUND_DATE : pystr := Eval vm_compute in utf8 ": Дата: ".
Definition FOUND_CATEGORY : pystr := Eval vm_compute in utf8 ", Категория: ".
Definition FOUND_AMOUNT : pystr := Eval vm_compute in utf8 ", Сумма: ".
Definition FOUND_DESCRIPTION : pystr := Eval vm_compute in utf8 ", Описание: ".

(** [str(i)] of a non-negative [int]. *)
Fixpoint uint_codes (u : Decimal.uint) : pystr :=
  match u with
  | Decimal.Nil => []
  | Decimal.D0 v => 48 :: uint_codes v
  | Decimal.D1 v => 49 :: uint_codes v
  | Decimal.D2 v => 50 :: uint_codes v
  | Decimal.D3 v => 51 :: uint_codes v
  | Decimal.D4 v => 52 :: uint_codes v
  | Decimal.D5 v => 53 :: uint_codes v
  | Decimal.D6 v => 54 :: uint_codes v
  | Decimal.D7 v => 55 :: uint_codes v
  | Decimal.D8 v => 56 :: uint_codes v
  | Decimal.D9 v => 57 :: uint_codes v
  end.

Definition str_of_nat (i : nat) : pystr := uint_codes (Nat.to_uint i).

Section Model.
Context {RT : Runtime}.

(** ** Numbers and records *)

(** The amounts the program handles: the [int] literal [0] (the amount
    [load_data] gives a new record, and the start value of [sum]) or a
    float. *)
Inductive number :=
| IntZero
| Float (x : pyfloat).

Definition str_of_number (a : number) : pystr :=
  match a with
  | IntZero => [48]
  | Float x => str_of_float x
  end.

(** [a - b]: the [int] operand of a mixed difference becomes a float. *)
Definition sub (a b : number) : number :=
  match a, b with
  | IntZero, IntZero => IntZero
  | IntZero, Float y => Float (float_sub float_zero y)
  | Float x, IntZero => Float (float_sub x float_zero)
  | Float x, Float y => Float (float_sub x y)
  end.

(** [sum(items)], which starts from the [int] [0]: the total is that [0]
    while every item is the [int] [0], and a float as soon as one item is
    a float; items that are [0] add nothing to it. *)
Definition floats (items : list number) : list pyfloat :=
  omap (fun a => match a with Float x => Some x | IntZero => None end) items.

Definition py_sum (items : list number) : number :=
  match floats items with
  | [] => IntZero
  | x :: xs => Float (float_sum (x :: xs))
  end.

(** [class Record] *)
Record record := Rec {
  date : pystr;
  category : pystr;
  amount : number;
  description : pystr
}.

Definition set_category (v : pystr) (r : record) : record :=
  Rec (date r) v (amount r) (description r).
Definition set_amount (v : number) (r : record) : record :=
  Rec (date r) (category r) v (description r).
Definition set_description (v : pystr) (r : record) : record :=
  Rec (date r) (category r) (amount r) v.

(** ** State and control *)

(** What the methods read and write: [self.records], the text of the file
    at [self.data_file] ([None] while there is no such file) and the lines
    printed so far. *)
Record world := World {
  records : list record;
  file : option pystr;
  console : list pystr
}.

(** A method body: it ends normally with a value or raises, and in both
    cases leaves a state behind. *)
Definition M (A : Type) : Type := world -> outcome A * world.

Definition ret {A} (a : A) : M A := fun w => (Return a, w).
Definition raise {A} (e : exn) : M A := fun w => (Raise e, w).
Definition bind {A B} (m : M A) (k : A -> M B) : M B :=
  fun w =>
    match m w with
    | (Return a, w') => k a w'
    | (Raise e, w') => (Raise e, w')
    end.

End Model.

Notation "x <- m ;; k" := (bind m (fun x => k))
  (at level 100, m at next level, right associativity).
Notation "m ;; k" := (bind m (fun _ => k))
  (at level 100, right associativity).

Section Methods.
Context {RT : Runtime}.

(** ** Primitive steps *)

(** [l[i]] on a list of strings: [IndexError] when out of range. *)
Definition item (l : list pystr) (i : nat) : M pystr :=
  match l !! i with
  | Some v => ret v
  | None => raise IndexError
  end.

(** [float(s)] *)
Definition float (s : pystr) : M pyfloat :=
  match float_of_str s with
  | Some x => ret x
  | None => raise ValueError
  end.

(** The target of [record.field = value], where [current] is what the
    variable [record] holds: assigning to an attribute of [None] raises
    [AttributeError]. *)
Definition target (current : option record) : M record :=
  match current with
  | Some r => ret r
  | None => raise AttributeError
  end.

(** [self.records.append(r)] *)
Definition append (r : record) : M unit :=
  fun w => (Return tt, World (records w ++ [r]) (file w) (console w)).

(** [print(line)] *)
Definition print (line : pystr) : M unit :=
  fun w => (Return tt, World (records w) (file w) (console w ++ [line])).

(** [if record: self.records.append(record)]: an instance of [Record]
    defines neither [__bool__] nor [__len__], so it is true exactly when
    it is not [None]. *)
Definition append_if_any (current : option record) : M unit :=
  match current with
  | Some r => append r
  | None => ret tt
  end.

(** ** [FinanceTracker.load_data] *)

(** One turn of the loop [for line in file]; the local variable [record]
    is passed in as [current] and its new value is returned.  In each
    assignment the right-hand side is evaluated before the target. *)
Definition load_line (line0 : pystr) (current : option record)
  : M (option record) :=
  let line := strip line0 in
  if startswith line DATE_PREFIX then
    append_if_any current ;;
    v <- item (split SEP line) 1 ;;
    ret (Some (Rec v [] IntZero []))
  else if startswith line CATEGORY_PREFIX then
    v <- item (split SEP line) 1 ;;
    r <- target current ;;
    ret (Some (set_category v r))
  else if startswith line AMOUNT_PREFIX then
    v <- item (split SEP line) 1 ;;
    x <- float v ;;
    r <- target current ;;
    ret (Some (set_amount (Float x) r))
  else if startswith line DESCRIPTION_PREFIX then
    v <- item (split SEP line) 1 ;;
    r <- target current ;;
    ret (Some (set_description v r))
  else ret current.

Fixpoint load_loop (lines : list pystr) (current : option record)
  : M (option record) :=
  match lines with
  | [] => ret current
  | line :: rest => r <- load_line line current ;; load_loop rest r
  end.

(** [open] raises [FileNotFoundError] when there is no file, and the
    handler passes; otherwise the loop runs over the file's lines and the
    last record is appended after it. *)
Definition load_data : M unit :=
  fun w =>
    match file w with
    | None => (Return tt, w)
    | Some text =>
        (r <- load_loop (file_lines text) None ;; append_if_any r) w
    end.

(** [FinanceTracker.__init__]: an empty list, then [load_data]. *)
Definition init : M unit :=
  fun w => load_data (World [] (file w) (console w)).

(** ** [FinanceTracker.save_data] *)

(** The five writes of one record. *)
Definition block (r : record) : pystr :=
  (DATE_PREFIX ++ [32] ++ date r ++ NL)
  ++ (CATEGORY_PREFIX ++ [32] ++ category r ++ NL)
  ++ (AMOUNT_PREFIX ++ [32] ++ str_of_number (amount r) ++ NL)
  ++ (DESCRIPTION_PREFIX ++ [32] ++ description r ++ NL)
  ++ NL.

Definition serialize (rs : list record) : pystr := concat (map block rs).

(** Opening with ['w'] truncates the file, or creates it; the text is kept
    as the program wrote it, with ["\n"] at the end of each line.  The
    file's codec is taken to encode every string, as UTF-8 does for every
    string without a lone surrogate; a write that the codec refuses (it
    raises [UnicodeEncodeError] in the program, with the file cut short)
    has no counterpart here, so what is proved of a save holds for text
    that the codec can write. *)
Definition save_data : M unit :=
  fun w =>
    (Return tt, World (records w) (Some (serialize (records w))) (console w)).

(** ** [add_record], [edit_record], [delete_record] *)

Definition add_record (d c : pystr) (a : number) (desc : pystr) : M unit :=
  append (Rec d c a desc) ;; save_data.

Definition out_of_range (index : Z) (rs : list record) : bool :=
  ((index <? 0) || (Z.of_nat (length rs) <=? index))%Z.

Definition edit_record (index : Z) (d c : pystr) (a : number) (desc : pystr)
  : M unit :=
  fun w =>
    if out_of_range index (records w) then print BAD_INDEX w
    else
      save_data
        (World (<[Z.to_nat index := Rec d c a desc]> (records w))
               (file w) (console w)).

Definition delete_record (index : Z) : M unit :=
  fun w =>
    if out_of_range index (records w) then print BAD_INDEX w
    else
      save_data
        (World (delete (Z.to_nat index) (records w)) (file w) (console w)).

(** ** [search_records] *)

(** The condition of the [if] in the loop. *)
Definition matches (query : pystr) (r : record) : bool :=
  contains (date r) query
  || contains (category r) query
  || bool_decide (str_of_number (amount r) = query).

(** The line printed for a match. *)
Definition search_line (i : nat) (r : record) : pystr :=
  str_of_nat i ++ FOUND_DATE ++ date r
  ++ FOUND_CATEGORY ++ category r
  ++ FOUND_AMOUNT ++ str_of_number (amount r)
  ++ FOUND_DESCRIPTION ++ description r.

(** [for i, record in enumerate(self.records)], from position [i] on. *)
Fixpoint search_loop (query : pystr) (i : nat) (rs : list record) : M unit :=
  match rs with
  | [] => ret tt
  | r :: rest =>
      (if matches query r then print (search_line i r) else ret tt) ;;
      search_loop query (S i) rest
  end.

Definition search_records (query : pystr) : M unit :=
  fun w => search_loop query 0 (records w) w.

(** ** [show_balance] *)

(** [sum(record.amount for record in self.records if record.category == c)] *)
Definition total (c : pystr) (rs : list record) : number :=
  py_sum (map amount (filter (fun r => category r = c) rs)).

Definition show_balance : M unit :=
  fun w =>
    let income := total INCOME (records w) in
    let expense := total EXPENSE (records w) in
    let balance := sub income expense in
    (print (BALANCE_TEXT ++ str_of_number balance) ;;
     print (INCOME_TEXT ++ str_of_number income) ;;
     print (EXPENSE_TEXT ++ str_of_number expense)) w.

End Methods.

(** ** [is_valid_date]

    The method is [datetime.strptime(date_string, "%Y-%m-%d")] inside
    [try ... except ValueError].  [strptime] is the standard library's; it
    is modelled after CPython's [Lib/_strptime.py]: the format becomes the
    regular expression
    [(?P<Y>\d\d\d\d)-(?P<m>1[0-2]|0[1-9]|[1-9])-(?P<d>3[0-1]|[1-2]\d|0[1-9]|[1-9]| [1-9])],
    which is matched at the start of the string; text left after the match
    is an error, and so are fields that [datetime.date] refuses. *)

Section Dates.
Context {RT : Runtime}.

(** Character classes, each giving the numeric value of what it accepts:
    an ASCII range of digits, [\d], and the space of [ [1-9]]. *)
Definition range (lo hi c : N) : option N :=
  if (lo <=? c) && (c <=? hi) then Some (c - 48) else None.
Definition digit (c : N) : option N := decimal_digit c.
Definition space (c : N) : option N := if c =? 32 then Some 0 else None.

(** Alternatives of one, two and four characters; each returns the number
    read and the rest of the string. *)
Definition one (p : N -> option N) (s : pystr) : option (N * pystr) :=
  match s with
  | a :: r => va ← p a; Some (va, r)
  | _ => None
  end.

Definition two (p q : N -> option N) (s : pystr) : option (N * pystr) :=
  match s with
  | a :: b :: r => va ← p a; vb ← q b; Some (10 * va + vb, r)
  | _ => None
  end.

Definition four (p : N -> option N) (s : pystr) : option (N * pystr) :=
  match s with
  | a :: b :: c :: d :: r =>
      va ← p a; vb ← p b; vc ← p c; vd ← p d;
      Some (1000 * va + 100 * vb + 10 * vc + vd, r)
  | _ => None
  end.

Definition year_directive : list (pystr -> option (N * pystr)) :=
  [four digit].
Definition month_directive : list (pystr -> option (N * pystr)) :=
  [two (range 49 49) (range 48 50); two (range 48 48) (range 49 57);
   one (range 49 57)].
Definition day_directive : list (pystr -> option (N * pystr)) :=
  [two (range 51 51) (range 48 49); two (range 49 50) digit;
   two (range 48 48) (range 49 57); one (range 49 57);
   two space (range 49 57)].

Definition literal (c : N) (s : pystr) : option pystr :=
  match s with
  | a :: r => if a =? c then Some r else None
  | [] => None
  end.

(** A directive followed by the rest of the pattern [k]: the alternatives
    are tried in order and the first one after which [k] succeeds wins. *)
Definition directive {A} (alts : list (pystr -> option (N * pystr)))
    (k : N -> pystr -> option A) (s : pystr) : option A :=
  head (omap (fun alt => '(v, r) ← alt s; k v r) alts).

(** [format_regex.match(data_string)]: year, month, day and what follows
    the match. *)
Definition match_format (s : pystr) : option (N * N * N * pystr) :=
  directive year_directive (fun y s1 =>
    s2 ← literal 45 s1;
    directive month_directive (fun m s3 =>
      s4 ← literal 45 s3;
      directive day_directive (fun d s5 => Some (y, m, d, s5)) s4) s2) s.

(** [datetime.date(year, month, day)] *)
Definition is_leap (y : N) : bool :=
  (y mod 4 =? 0) && (negb (y mod 100 =? 0) || (y mod 400 =? 0)).

Definition DAYS_IN_MONTH : list N :=
  [0; 31; 28; 31; 30; 31; 30; 31; 31; 30; 31; 30; 31].

Definition days_in_month (y m : N) : N :=
  if (m =? 2) && is_leap y then 29
  else default 0 (DAYS_IN_MONTH !! N.to_nat m).

Definition check_date_fields (y m d : N) : bool :=
  (1 <=? y) && (y <=? 9999) && (1 <=? m) && (m <=? 12)
  && (1 <=? d) && (d <=? days_in_month y m).

Definition strptime (s : pystr) : outcome (N * N * N) :=
  match match_format s with
  | None => Raise ValueError
  | Some (y, m, d, rest) =>
      if bool_decide (rest = []) then
        if check_date_fields y m d then Return (y, m, d)
        else Raise ValueError
      else Raise ValueError
  end.

Definition is_valid_date (date_string : pystr) : outcome bool :=
  match strptime date_string with
  | Return _ => Return true
  | Raise ValueError => Return false
  | Raise e => Raise e
  end.

End Dates.

(** ** A runtime to run the model on

    Amounts are exact decimals [units / 10 ^ places], kept without trailing
    zeros in the fraction.  [dec_of_str] reads plain ASCII decimal
    literals (optional sign, digits, optional fraction) and [str_of_dec]
    prints in positional notation with at least one digit after the point,
    which is how CPython shows a float between [1e-4] and [1e16].  The
    table of digits has the ASCII digits only. *)

Record dec := Dec { units : Z; places : nat }.

Fixpoint dec_norm (m : Z) (k : nat) : dec :=
  match k with
  | O => Dec m 0
  | S k' => if (m mod 10 =? 0)%Z then dec_norm (m / 10) k' else Dec m k
  end.

Definition dec_align (x : dec) (k : nat) : Z :=
  (units x * 10 ^ Z.of_nat (k - places x))%Z.

Definition dec_add (x y : dec) : dec :=
  let k := max (places x) (places y) in
  dec_norm (dec_align x k + dec_align y k) k.

Definition dec_sub (x y : dec) : dec :=
  let k := max (places x) (places y) in
  dec_norm (dec_align x k - dec_align y k) k.

Definition str_of_dec (x : dec) : pystr :=
  let m := Z.abs (units x) in
  let p := (10 ^ Z.of_nat (places x))%Z in
  let whole := uint_codes (N.to_uint (Z.to_N (m / p))) in
  let frac := uint_codes (N.to_uint (Z.to_N (m mod p))) in
  (if (units x <? 0)%Z then [45] else [])
  ++ whole ++ [46]
  ++ (if decide (places x = 0%nat) then [48]
      else replicate (places x - length frac) 48 ++ frac).

Definition ascii_digit (c : N) : option N :=
  if (48 <=? c) && (c <=? 57) then Some (c - 48) else None.

Fixpoint take_digits (s : pystr) : pystr * pystr :=
  match s with
  | [] => ([], [])
  | c :: r =>
      if (48 <=? c) && (c <=? 57)
      then let '(ds, rest) := take_digits r in (c :: ds, rest)
      else ([], s)
  end.

Definition digits_value (ds : pystr) : Z :=
  fold_left (fun acc c => (10 * acc + Z.of_N (c - 48))%Z) ds 0%Z.

Definition dec_of_str (s0 : pystr) : option dec :=
  let s := strip s0 in
  let '(negative, body) :=
    match s with
    | 45 :: r => (true, r)
    | 43 :: r => (false, r)
    | _ => (false, s)
    end in
  let '(whole, r1) := take_digits body in
  let '(frac, r2) :=
    match r1 with
    | 46 :: r => take_digits r
    | _ => ([], r1)
    end in
  if bool_decide (r2 = []) && negb (bool_decide (whole ++ frac = [])) then
    let v := digits_value (whole ++ frac) in
    Some (dec_norm (if negative then - v else v)%Z (length frac))
  else None.

#[export] Instance decimal_runtime : Runtime := {
  pyfloat := dec;
  float_of_str := dec_of_str;
  str_of_float := str_of_dec;
  float_zero := Dec 0 0;
  float_sum := fun xs => fold_left dec_add xs (Dec 0 0);
  float_sub := dec_sub;
  decimal_digit := ascii_digit
}.


(** ** Notions used to state the properties *)

(** [q] is a substring of [s]. *)
Definition substring (q s : pystr) : Prop := exists a b, s = a ++ q ++ b.

(** No line break in [v]. *)
Definition no_breaks (v : pystr) : bool :=
  forallb (fun c => negb (c =? 10) && negb (c =? 13)) v.

(** A value that one line of the file carries unchanged: it ends with a
    character that is not white space (so it is not empty), and it has no
    line break and no occurrence of the separator [": "]. *)
Definition plain (v : pystr) : bool :=
  match list.last v with Some c => negb (isspace c) | None => false end
  && no_breaks v
  && negb (contains v SEP).

(** The strict shape [YYYY-MM-DD]: ten characters, ASCII digits around
    two hyphens. *)
Definition ascii_digits (s : pystr) : bool :=
  forallb (fun c => (48 <=? c) && (c <=? 57)) s.

Definition date_char (c : N) : bool := ((48 <=? c) && (c <=? 57)) || (c =? 45).

Definition iso_date (d : pystr) : bool :=
  match d with
  | [y1; y2; y3; y4; h1; m1; m2; h2; d1; d2] =>
      ascii_digits [y1; y2; y3; y4; m1; m2; d1; d2] && (h1 =? 45) && (h2 =? 45)
  | _ => false
  end.

Section Storable.
Context {RT : Runtime}.

(** A float that [str] shows as a plain value and [float] reads back. *)
Definition prints_back (x : pyfloat) : Prop :=
  plain (str_of_float x) = true /\ float_of_str (str_of_float x) = Some x.

(** A record each of whose fields one line of the file carries. *)
Definition storable (r : record) : Prop :=
  plain (date r) = true /\ plain (category r) = true
  /\ (exists x, amount r = Float x /\ prints_back x)
  /\ plain (description r) = true.

(** A well-formed record: a date of the shape [YYYY-MM-DD], one of the two
    categories, a float amount, and a description that is a plain value. *)
Definition well_formed (r : record) : Prop :=
  iso_date (date r) = true
  /\ (category r = INCOME \/ category r = EXPENSE)
  /\ (exists x, amount r = Float x /\ prints_back x)
  /\ plain (description r) = true.

(** The lines that iterating over one written block yields. *)
Definition block_lines (r : record) : list pystr :=
  [DATE_PREFIX ++ [32] ++ date r ++ NL;
   CATEGORY_PREFIX ++ [32] ++ category r ++ NL;
   AMOUNT_PREFIX ++ [32] ++ str_of_number (amount r) ++ NL;
   DESCRIPTION_PREFIX ++ [32] ++ description r ++ NL;
   NL].

End Storable.

Section Queries.
Context {RT : Runtime}.

(** The matches of [search_records]: the positions and records for which
    the loop prints a line, in the order of the loop. *)
Fixpoint search_hits (query : pystr) (i : nat) (rs : list record)
  : list (nat * record) :=
  match rs with
  | [] => []
  | r :: rest =>
      (if matches query r then [(i, r)] else [])
      ++ search_hits query (S i) rest
  end.

(** The match predicate in words: the query is a substring of the date or
    of the category, or it is the string form of the amount. *)
Definition matching (query : pystr) (r : record) : Prop :=
  substring query (date r) \/ substring query (category r)
  \/ str_of_number (amount r) = query.

(** The amounts of the records of category [c], in the order of the
    list. *)
Fixpoint amounts_of (c : pystr) (rs : list record) : list number :=
  match rs with
  | [] => []
  | r :: rest =>
      if decide (category r = c) then amount r :: amounts_of c rest
      else amounts_of c rest
  end.

End Queries.

Section AcceptedDates.
Context {RT : Runtime}.

(** The strings [strptime] accepts for the format, in words: four digits;
    a month written [1] to [9], [01] to [09] or [10] to [12]; a day written
    [1] to [9], the same after a space or after [0], [10] to [29], [30] or
    [31]; hyphens between them; a year from 1 on and a day that the month
    of that year has.  Each text comes with the number it denotes. *)
Inductive year_text : pystr -> N -> Prop :=
| year_four a b c d va vb vc vd :
    decimal_digit a = Some va -> decimal_digit b = Some vb ->
    decimal_digit c = Some vc -> decimal_digit d = Some vd ->
    year_text [a; b; c; d] (1000 * va + 100 * vb + 10 * vc + vd).

Inductive month_text : pystr -> N -> Prop :=
| month_bare c : 49 <= c <= 57 -> month_text [c] (c - 48)
| month_zero c : 49 <= c <= 57 -> month_text [48; c] (c - 48)
| month_ten c : 48 <= c <= 50 -> month_text [49; c] (10 + (c - 48)).

Inductive day_text : pystr -> N -> Prop :=
| day_bare c : 49 <= c <= 57 -> day_text [c] (c - 48)
| day_blank c : 49 <= c <= 57 -> day_text [32; c] (c - 48)
| day_zero c : 49 <= c <= 57 -> day_text [48; c] (c - 48)
| day_tens a b vb :
    49 <= a <= 50 -> decimal_digit b = Some vb ->
    day_text [a; b] (10 * (a - 48) + vb)
| day_thirty c : 48 <= c <= 49 -> day_text [51; c] (30 + (c - 48)).

Definition accepted_date (s : pystr) : Prop :=
  exists yt mt dt y m d,
    s = yt ++ [45] ++ mt ++ [45] ++ dt
    /\ year_text yt y /\ month_text mt m /\ day_text dt d
    /\ 1 <= y <= 9999 /\ d <= days_in_month y m.

End AcceptedDates.

(** ** Sample ledgers *)

(** Three entries: 100 earned, 40 spent, 5 earned. *)
Definition sample_ledger : list record :=
  [Rec (utf8 "2024-01-01") INCOME (Float (Dec 100 0)) (utf8 "salary");
   Rec (utf8 "2024-01-02") EXPENSE (Float (Dec 40 0)) (utf8 "food");
   Rec (utf8 "2024-01-03") INCOME (Float (Dec 5 0)) (utf8 "gift")].

(** One entry whose description holds the separator. *)
Definition colon_ledger : list record :=
  [Rec (utf8 "2024-01-01") EXPENSE (Float (Dec 50 0)) (utf8 "a: b")].

(** The file [save_data] writes for [colon_ledger]. *)
Definition colon_file : pystr :=
  utf8 "Дата: 2024-01-01" ++ NL
  ++ utf8 "Категория: Расход" ++ NL
  ++ utf8 "Сумма: 50.0" ++ NL
  ++ utf8 "Описание: a: b" ++ NL
  ++ NL.

(** The record of the search example. *)
Definition fifty : list record :=
  [Rec (utf8 "2024-01-01") INCOME (Float (Dec 50 0)) (utf8 "x")].

(** The value of a labelled line in the words of the specification: what
    follows the first [": "], [None] when the line has no separator. *)
Fixpoint after_first_sep (s : pystr) : option pystr :=
  if startswith s SEP then Some (drop 2 s)
  else match s with
       | [] => None
       | _ :: r => after_first_sep r
       end.

(** A file whose amount line holds a second separator. *)
Definition twelve_file : pystr :=
  utf8 "Дата: 2024-01-01" ++ NL
  ++ utf8 "Сумма: 12: abc" ++ NL.



(** The ledger with one entry of 50.0 spent and the description [text]. *)
Definition one_entry (text : pystr) : list record :=
  [Rec (utf8 "2024-01-01") EXPENSE (Float (Dec 50 0)) text].

(** What a fresh tracker holds after [save_data] wrote [rs]: the outcome
    of the load and the descriptions of the records. *)
Definition reloaded (rs : list record) : outcome unit * list pystr :=
  let saved := (save_data (World rs None [])).2 in
  let loaded := init (World [] (file saved) []) in
  (loaded.1, description <$> records loaded.2).

(** ** Calls into the tracker *)

Section Calls.
Context {RT : Runtime}.

(** One call of a public method of [FinanceTracker] with its arguments,
    as the menu of [main] makes them. *)
Inductive command :=
| Add (d c : pystr) (a : number) (desc : pystr)
| Edit (index : Z) (d c : pystr) (a : number) (desc : pystr)
| Delete (index : Z)
| Search (query : pystr)
| Balance.

Definition call (c : command) : M unit :=
  match c with
  | Add d c a desc => add_record d c a desc
  | Edit index d c a desc => edit_record index d c a desc
  | Delete index => delete_record index
  | Search query => search_records query
  | Balance => show_balance
  end.

(** Calls made one after the other. *)
Fixpoint session (cs : list command) : M unit :=
  match cs with
  | [] => ret tt
  | c :: rest => call c ;; session rest
  end.

(** The record a call stores, when it stores one. *)
Definition stored (c : command) : option record :=
  match c with
  | Add d c a desc => Some (Rec d c a desc)
  | Edit _ d c a desc => Some (Rec d c a desc)
  | _ => None
  end.

(** The file holds what [save_data] writes for the records in memory. *)
Definition in_step (w : world) : Prop :=
  file w = Some (serialize (records w)).

End Calls.

(** ** Lines of the data file *)

(** The line, once stripped, starts with the date label. *)
Definition date_line (l : pystr) : bool := startswith (strip l) DATE_PREFIX.

(** The line, once stripped, starts with one of the four labels: the
    lines for which [load_data] does something. *)
Definition labelled (l : pystr) : bool :=
  startswith (strip l) DATE_PREFIX || startswith (strip l) CATEGORY_PREFIX
  || startswith (strip l) AMOUNT_PREFIX
  || startswith (strip l) DESCRIPTION_PREFIX.

(** The number of date lines among [ls]. *)
Definition date_lines (ls : list pystr) : nat :=
  length (List.filter date_line ls).

(** A run of calls on the sample ledger. *)
Definition sample_session : list command :=
  [Add (utf8 "2024-02-01") EXPENSE (Float (Dec 125 1)) (utf8 "books");
   Delete 0; Search (utf8 "2024");
   Edit 1 (utf8 "2024-02-02") INCOME (Float (Dec 7 0)) (utf8 "refund");
   Balance].

(** A file of two blocks, the second a date line alone, with no line
    terminator at the end. *)
Definition two_dates_file : pystr :=
  utf8 "Дата: 2024-01-01" ++ NL
  ++ utf8 "Сумма: 5.0" ++ NL
  ++ utf8 "Дата: 2024-01-02".

(** Which branch of the loop of [load_data] a line takes. *)
Inductive line_kind :=
| DateLine | CategoryLine | AmountLine | DescriptionLine | OtherLine.

Definition kind (l : pystr) : line_kind :=
  let line := strip l in
  if startswith line DATE_PREFIX then DateLine
  else if startswith line CATEGORY_PREFIX then CategoryLine
  else if startswith line AMOUNT_PREFIX then AmountLine
  else if startswith line DESCRIPTION_PREFIX then DescriptionLine
  else OtherLine.

(** A value of white space only, the empty one included, without line
    break. *)
Definition blank (v : pystr) : bool := forallb isspace v && no_breaks v.

(** A character that is no line break and no colon. *)
Definition safe (c : N) : bool :=
  negb (c =? 10) && negb (c =? 13) && negb (c =? 58).

(** An expense entered with an empty description. *)
Definition blank_entry : record :=
  Rec (utf8 "2024-02-01") EXPENSE (Float (Dec 9 0)) [].

(** The right-hand side of the assignment a labelled line leads to:
    piece 1 of the split, where there is one, and for an amount line its
    [float]. *)
Definition line_value (l : pystr) : option pystr :=
  split SEP (strip l) !! 1%nat.

Definition evaluates `{RT : Runtime} (l : pystr) : bool :=
  match line_value l with
  | None => false
  | Some v =>
      match kind l with
      | AmountLine =>
          match float_of_str v with Some _ => true | None => false end
      | _ => true
      end
  end.

(** A file that starts with a category line; a blank line stands before
    it. *)
Definition headless_file : pystr :=
  NL ++ utf8 "Категория: Доход" ++ NL
  ++ utf8 "Дата: 2024-01-01" ++ NL.

(** ** The menu of [main]

    [main] builds the tracker and runs the menu in [while True] until the
    choice ['6'] is read.  It talks to the user with [input] and [print]:
    the state below has the lines still waiting on the standard input and
    what was written to the standard output, next to the tracker's
    records and the file.  [int(s)] and the comparison [amount < 0] are
    the runtime's, as [float] is. *)

Class Builtins (RT : Runtime) := {
  (** [int(s)], [None] where it raises [ValueError] *)
  int_of_str : pystr -> option Z;
  (** [x < 0] *)
  float_negative : pyfloat -> bool
}.

(** What stands on the standard output: a printed line, or the prompt of
    an [input], which is written without line end. *)
Inductive shown :=
| Line (text : pystr)
| Prompt (text : pystr).

(** How a piece of [main] ends: normally with a value, with one of the
    exceptions of the tracker's methods and the conversions, or with the
    [EOFError] of [input] when the standard input is used up. *)
Inductive ending (A : Type) :=
| Ends (a : A)
| Fails (e : exn)
| EOFError.
Arguments Ends {A} a.
Arguments Fails {A} e.
Arguments EOFError {A}.

Definition MENU : list pystr :=
  Eval vm_compute in
  [utf8 "--- Меню ---"; utf8 "1. Добавить запись";
   utf8 "2. Редактировать запись"; utf8 "3. Удалить запись";
   utf8 "4. Поиск записей"; utf8 "5. Показать баланс"; utf8 "6. Выйти"].
Definition ASK_CHOICE : pystr := Eval vm_compute in utf8 "Введите ваш выбор: ".
Definition ASK_DATE : pystr :=
  Eval vm_compute in utf8 "Введите дату (гггг-мм-дд): ".
Definition ASK_NEW_DATE : pystr :=
  Eval vm_compute in utf8 "Введите новую дату (гггг-мм-дд): ".
Definition ASK_CATEGORY : pystr :=
  Eval vm_compute in utf8 "Введите категорию (Доход/Расход): ".
Definition ASK_NEW_CATEGORY : pystr :=
  Eval vm_compute in utf8 "Введите новую категорию (Доход/Расход): ".
Definition ASK_AMOUNT : pystr := Eval vm_compute in utf8 "Введите сумму: ".
Definition ASK_NEW_AMOUNT : pystr :=
  Eval vm_compute in utf8 "Введите новую сумму: ".
Definition ASK_DESCRIPTION : pystr :=
  Eval vm_compute in utf8 "Введите описание: ".
Definition ASK_NEW_DESCRIPTION : pystr :=
  Eval vm_compute in utf8 "Введите новое описание: ".
Definition ASK_EDIT_INDEX : pystr :=
  Eval vm_compute in utf8 "Введите индекс записи для редактирования: ".
Definition ASK_DELETE_INDEX : pystr :=
  Eval vm_compute in utf8 "Введите индекс записи для удаления: ".
Definition ASK_QUERY : pystr :=
  Eval vm_compute in utf8 "Введите строку для поиска: ".
Definition BAD_CHOICE : pystr :=
  Eval vm_compute in utf8 "Некорректный выбор, попробуйте снова.".

Declare Scope io_scope.
Delimit Scope io_scope with io.

Section Main.
Context {RT : Runtime} {BI : Builtins RT}.

Record terminal := Terminal {
  memory : list record;     (* [tracker.records] *)
  disk : option pystr;      (* the text of [data.txt], if the file exists *)
  stdin : list pystr;       (* the lines to come, without their line ends *)
  stdout : list shown
}.

(** A piece of [main].  The loops take fuel, and [None] is the answer of
    a loop whose fuel did not last. *)
Definition IO (A : Type) : Type := terminal -> option (ending A * terminal).

Definition io_ret {A} (a : A) : IO A := fun t => Some (Ends a, t).

Definition io_bind {A B} (m : IO A) (k : A -> IO B) : IO B :=
  fun t =>
    match m t with
    | Some (Ends a, t') => k a t'
    | Some (Fails e, t') => Some (Fails e, t')
    | Some (EOFError, t') => Some (EOFError, t')
    | None => None
    end.

Local Notation "x <- m ;; k" := (io_bind m (fun x => k))
  (at level 100, m at next level, right associativity) : io_scope.
Local Notation "m ;; k" := (io_bind m (fun _ => k))
  (at level 100, right associativity) : io_scope.
Local Open Scope io_scope.

(** The end of an expression that has no effect. *)
Definition pure {A} (o : outcome A) : IO A :=
  fun t =>
    Some (match o with Return a => Ends a | Raise e => Fails e end, t).

(** A call of a method of the tracker: it runs on the records and the
    file, and the lines it prints come after what was written before. *)
Definition method {A} (m : M A) : IO A :=
  fun t =>
    let r := m (World (memory t) (disk t) []) in
    pure r.1
      (Terminal (records r.2) (file r.2) (stdin t)
                (stdout t ++ (Line <$> console r.2))).

(** [print(line)] in [main] *)
Definition say (line : pystr) : IO unit :=
  fun t =>
    Some (Ends tt,
          Terminal (memory t) (disk t) (stdin t) (stdout t ++ [Line line])).

Fixpoint say_all (lines : list pystr) : IO unit :=
  match lines with
  | [] => io_ret tt
  | line :: rest => say line ;; say_all rest
  end.

(** [input(prompt)]: the prompt is written, then a line is read. *)
Definition input (prompt : pystr) : IO pystr :=
  fun t =>
    match stdin t with
    | [] =>
        Some (EOFError,
              Terminal (memory t) (disk t) [] (stdout t ++ [Prompt prompt]))
    | line :: rest =>
        Some (Ends line,
              Terminal (memory t) (disk t) rest
                       (stdout t ++ [Prompt prompt]))
    end.

(** [int(s)] and [float(s)] *)
Definition py_int (s : pystr) : IO Z :=
  pure (match int_of_str s with Some i => Return i | None => Raise ValueError end).

Definition py_float (s : pystr) : IO pyfloat :=
  pure (match float_of_str s with Some x => Return x | None => Raise ValueError end).

(** [while cond(v): v = body(v)], for a loop over one variable. *)
Fixpoint while {V} (fuel : nat) (cond : V -> IO bool) (body : V -> IO V)
    (v : V) : IO V :=
  match fuel with
  | O => fun _ => None
  | S n =>
      c <- cond v ;;
      if c : bool then v' <- body v ;; while n cond body v' else io_ret v
  end.

(** The three questions of the choices ['1'] and ['2']; the two choices
    differ in the first prompt only, the prompt of the loop is the same.

    [date = input(first)]
    [while tracker.is_valid_date(date) == False: date = input(...)] *)
Definition ask_date (fuel : nat) (first : pystr) : IO pystr :=
  date <- input first ;;
  while fuel
    (fun date => ok <- pure (is_valid_date date) ;;
                 io_ret (bool_decide (ok = false)))
    (fun _ => input ASK_DATE) date.

(** [category = input(first)]
    [while category != 'Доход' and category != 'Расход': category = input(...)] *)
Definition ask_category (fuel : nat) (first : pystr) : IO pystr :=
  category <- input first ;;
  while fuel
    (fun category =>
       io_ret (bool_decide (category <> INCOME)
               && bool_decide (category <> EXPENSE)))
    (fun _ => input ASK_CATEGORY) category.

(** [amount = float(input(first))]
    [while amount < 0: amount = float(input(...))] *)
Definition ask_amount (fuel : nat) (first : pystr) : IO pyfloat :=
  amount <- (s <- input first ;; py_float s) ;;
  while fuel
    (fun amount => io_ret (float_negative amount))
    (fun _ => s <- input ASK_AMOUNT ;; py_float s) amount.

(** The chain of [if choice == ...] in the loop of [main]; the answer is
    [false] at [break]. *)
Definition serve (fuel : nat) (choice : pystr) : IO bool :=
  if bool_decide (choice = [49]) then
    date <- ask_date fuel ASK_DATE ;;
    category <- ask_category fuel ASK_CATEGORY ;;
    amount <- ask_amount fuel ASK_AMOUNT ;;
    description <- input ASK_DESCRIPTION ;;
    method (add_record date category (Float amount) description) ;;
    io_ret true
  else if bool_decide (choice = [50]) then
    index <- (s <- input ASK_EDIT_INDEX ;; py_int s) ;;
    date <- ask_date fuel ASK_NEW_DATE ;;
    category <- ask_category fuel ASK_NEW_CATEGORY ;;
    amount <- ask_amount fuel ASK_NEW_AMOUNT ;;
    description <- input ASK_NEW_DESCRIPTION ;;
    method (edit_record index date category (Float amount) description) ;;
    io_ret true
  else if bool_decide (choice = [51]) then
    index <- (s <- input ASK_DELETE_INDEX ;; py_int s) ;;
    method (delete_record index) ;;
    io_ret true
  else if bool_decide (choice = [52]) then
    query <- input ASK_QUERY ;;
    method (search_records query) ;;
    io_ret true
  else if bool_decide (choice = [53]) then
    method show_balance ;;
    io_ret true
  else if bool_decide (choice = [54]) then
    io_ret false
  else
    say BAD_CHOICE ;;
    io_ret true.

(** One turn of [while True]: the menu, the choice, and what is done for
    it. *)
Definition turn (fuel : nat) : IO bool :=
  say_all MENU ;;
  choice <- input ASK_CHOICE ;;
  serve fuel choice.

Fixpoint menu (fuel : nat) : IO unit :=
  match fuel with
  | O => fun _ => None
  | S n => go_on <- turn n ;; if go_on : bool then menu n else io_ret tt
  end.

(** [main]: [tracker = FinanceTracker(data_file)], then the menu. *)
Definition main (fuel : nat) : IO unit :=
  method init ;; menu fuel.

(** What the questions of the menu let through: a date that
    [is_valid_date] accepts, one of the two categories, and a float that
    is not below zero. *)
Definition checked (r : record) : Prop :=
  is_valid_date (date r) = Return true
  /\ (category r = INCOME \/ category r = EXPENSE)
  /\ exists x, amount r = Float x /\ float_negative x = false.

(** The state of the tracker inside a terminal, with nothing printed. *)
Definition tracker (t : terminal) : world := World (memory t) (disk t) [].

(** A call whose record, if it stores one, went through the questions. *)
Definition entered (c : command) : Prop :=
  forall r, stored c = Some r -> checked r.

(** [t'] comes after [t] when lines were read and nothing else changed
    but the output. *)
Definition quiet (t t' : terminal) : Prop :=
  memory t' = memory t /\ disk t' = disk t
  /\ exists used, stdin t = used ++ stdin t'.

(** [t'] comes after [t] when lines were read and the tracker went
    through calls of its methods, each with arguments that went through
    the questions. *)
Definition called (t t' : terminal) : Prop :=
  exists used cs,
    stdin t = used ++ stdin t'
    /\ Forall entered cs
    /\ memory t' = records (session cs (tracker t)).2
    /\ disk t' = file (session cs (tracker t)).2.

(** Every ending of [m] that the fuel allows relates the two states by
    [R]; a value it ends with has [P], the only exception is
    [ValueError], and [EOFError] comes with nothing left to read. *)
Definition keeps {A} (R : terminal -> terminal -> Prop) (m : IO A)
    (P : A -> Prop) : Prop :=
  forall t e t',
    m t = Some (e, t') ->
    R t t'
    /\ match e with
       | Ends a => P a
       | Fails x => x = ValueError
       | EOFError => stdin t' = []
       end.

(** [m'] ends as [m] does wherever the fuel of [m] lasts. *)
Definition extends {A} (m m' : IO A) : Prop :=
  forall t r, m t = Some r -> m' t = Some r.

(** [m] ends on [t], and what is left to read has not grown; it has
    shrunk when [m] ends normally and [strict] is set. *)
Definition reads {A} (strict : bool) (m : IO A) (t : terminal) : Prop :=
  exists e t',
    m t = Some (e, t')
    /\ (length (stdin t') <= length (stdin t))%nat
    /\ (strict = true -> forall a, e = Ends a ->
                        (length (stdin t') < length (stdin t))%nat).

End Main.

(** [int] and [<] for the decimal runtime: an optional sign and ASCII
    digits, white space around them stripped. *)
Definition int_of_ascii (s0 : pystr) : option Z :=
  let s := strip s0 in
  let '(negative, body) :=
    match s with
    | 45 :: r => (true, r)
    | 43 :: r => (false, r)
    | _ => (false, s)
    end in
  let '(ds, rest) := take_digits body in
  if bool_decide (rest = []) && negb (bool_decide (ds = [])) then
    Some (if negative then - digits_value ds else digits_value ds)%Z
  else None.

#[export] Instance decimal_builtins : Builtins decimal_runtime := {
  int_of_str := int_of_ascii;
  float_negative := fun x => (units x <? 0)%Z
}.

(** A terminal with the sample ledger on file and [lines] typed in. *)
Definition typed (lines : list pystr) : terminal :=
  Terminal [] (Some (serialize sample_ledger)) lines [].

(** A user who adds a record with a date and a category that are asked
    for twice, looks at the balance and leaves. *)
Definition sample_input : list pystr :=
  [utf8 "1"; utf8 "2024-02-30"; utf8 "2024-02-29"; utf8 "доход";
   utf8 "Доход"; utf8 "-3"; utf8 "12.5"; utf8 "bonus"; utf8 "5"; utf8 "6"].

(** The same terminal once the tracker has been built, and the terminal
    the menu leaves behind. *)
Definition typed_loaded (lines : list pystr) : terminal :=
  Terminal sample_ledger (Some (serialize sample_ledger)) lines [].

Definition answered (lines : list pystr) : terminal :=
  match menu (length lines) (typed_loaded lines) with
  | Some (_, t) => t
  | None => typed_loaded lines
  end.

(** How the menu ends on it; a loop whose fuel did not last is shown as
    a failure. *)
Definition ending_of (lines : list pystr) : ending unit :=
  match menu (length lines) (typed_loaded lines) with
  | Some (e, _) => e
  | None => Fails AttributeError
  end.
(** * Properties *)

(** ** Strings *)

Lemma startswith_app (p s : pystr) : startswith (p ++ s) p = true.
Proof.
  induction p as [|a p IH]; simpl; [done|].
  by rewrite N.eqb_refl, IH.
Qed.

Lemma startswith_prefix (s p : pystr) :
  startswith s p = true <-> exists t, s = p ++ t.
Proof.
  split.
  - revert s. induction p as [|a p IH]; intros s H; simpl in *.
    + by exists s.
    + destruct s as [|b s]; [done|].
      apply andb_true_iff in H as [Hab Hs].
      apply N.eqb_eq in Hab as ->.
      destruct (IH _ Hs) as [t ->]. by exists t.
  - intros [t ->]. apply startswith_app.
Qed.

Lemma startswith_head (s p : pystr) (a b : N) :
  a <> b -> startswith (b :: s) (a :: p) = false.
Proof. intros H. simpl. by apply N.eqb_neq in H as ->. Qed.

Lemma contains_nil (s : pystr) : contains s [] = true.
Proof. by destruct s. Qed.

Lemma contains_unfold (s q : pystr) :
  contains s q =
  startswith s q || match s with [] => false | _ :: s' => contains s' q end.
Proof. by destruct s. Qed.

(** [contains] finds exactly the strings that have [q] as a factor. *)
Lemma contains_factor (s q : pystr) :
  contains s q = true <-> exists a b, s = a ++ q ++ b.
Proof.
  split.
  - induction s as [|c s IH]; simpl; intros H.
    + rewrite orb_false_r in H.
      apply startswith_prefix in H as [t H]. by exists [], t.
    + apply orb_true_iff in H as [H|H].
      * apply startswith_prefix in H as [t H]. by exists [], t.
      * destruct (IH H) as (a & b & ->). by exists (c :: a), b.
  - intros (a & b & ->). induction a as [|c a IH]; simpl.
    + by rewrite contains_unfold, startswith_app.
    + by rewrite IH, orb_true_r.
Qed.

Lemma contains_app_r (a s q : pystr) :
  contains s q = true -> contains (a ++ s) q = true.
Proof.
  intros H. apply contains_factor in H as (x & y & ->).
  apply contains_factor. exists (a ++ x), y. by rewrite <- app_assoc.
Qed.

Lemma lstrip_id (c : N) (s : pystr) :
  isspace c = false -> lstrip (c :: s) = c :: s.
Proof. intros H. simpl. by rewrite H. Qed.

Lemma rstrip_id (s : pystr) (c : N) :
  isspace c = false -> rstrip (s ++ [c]) = s ++ [c].
Proof.
  intros H. unfold rstrip. rewrite rev_app_distr. simpl. rewrite H.
  simpl. by rewrite rev_involutive.
Qed.

Lemma rstrip_newline (s : pystr) : rstrip (s ++ NL) = rstrip s.
Proof. unfold rstrip, NL. by rewrite rev_app_distr. Qed.

(** A written line, stripped: the terminator goes and nothing else, when
    the line starts with a label and ends with a plain value. *)
Lemma strip_line (c : N) (p v : pystr) :
  isspace c = false -> plain v = true ->
  strip ((c :: p) ++ v ++ NL) = (c :: p) ++ v.
Proof.
  intros Hc Hv. unfold plain in Hv.
  apply andb_true_iff in Hv as [Hv _]. apply andb_true_iff in Hv as [Hz _].
  destruct (list.last v) as [z|] eqn:Hl; [|done].
  apply negb_true_iff in Hz.
  apply last_Some in Hl as [v' ->].
  unfold strip. cbn [app]. rewrite lstrip_id by done.
  change (c :: p ++ (v' ++ [z]) ++ NL) with ((c :: p) ++ (v' ++ [z]) ++ NL).
  rewrite !app_assoc, rstrip_newline. by apply rstrip_id.
Qed.

(** [split] leaves a string without separator in one piece. *)
Lemma split_from_whole (sep s cur : pystr) :
  contains s sep = false -> split_from sep s 0 cur = [rev cur ++ s].
Proof.
  revert cur. induction s as [|c s IH]; intros cur H.
  - simpl. by rewrite app_nil_r.
  - rewrite contains_unfold in H. apply orb_false_iff in H as [H1 H2].
    cbn [split_from]. rewrite H1, IH by done.
    simpl. by rewrite <- app_assoc.
Qed.

Lemma split_whole (sep s : pystr) :
  contains s sep = false -> split sep s = [s].
Proof. intros H. unfold split. by rewrite split_from_whole. Qed.

(** Lines of a text: a stretch without line break, then its terminator. *)
Lemma universal_newlines_line (l rest : pystr) :
  no_breaks l = true ->
  universal_newlines (l ++ 10 :: rest) = l ++ 10 :: universal_newlines rest.
Proof.
  induction l as [|c l IH]; intros H; [done|].
  simpl in H. apply andb_true_iff in H as [Hc Hl].
  apply andb_true_iff in Hc as [_ Hc]. apply negb_true_iff in Hc.
  simpl. by rewrite Hc, IH.
Qed.

Lemma readlines_line (l rest : pystr) :
  no_breaks l = true ->
  readlines (l ++ 10 :: rest) = (l ++ [10]) :: readlines rest.
Proof.
  induction l as [|c l IH]; intros H; [done|].
  simpl in H. apply andb_true_iff in H as [Hc Hl].
  apply andb_true_iff in Hc as [Hc _]. apply negb_true_iff in Hc.
  simpl. by rewrite Hc, IH.
Qed.

Lemma no_breaks_app (a b : pystr) :
  no_breaks (a ++ b) = no_breaks a && no_breaks b.
Proof. apply forallb_app. Qed.

Lemma plain_no_breaks (v : pystr) : plain v = true -> no_breaks v = true.
Proof.
  unfold plain. intros H.
  apply andb_true_iff in H as [H _]. by apply andb_true_iff in H as [_ H].
Qed.

Lemma plain_no_sep (v : pystr) : plain v = true -> contains v SEP = false.
Proof.
  unfold plain. intros H.
  apply andb_true_iff in H as [_ H]. by apply negb_true_iff in H.
Qed.

Lemma strip_labelled (lab v : pystr) :
  match lab with c :: _ => isspace c | [] => true end = false ->
  plain v = true ->
  strip (lab ++ [32] ++ v ++ NL) = lab ++ [32] ++ v.
Proof.
  destruct lab as [|c p]; [done|]. intros Hc Hv.
  pose proof (strip_line c (p ++ [32]) v Hc Hv) as H.
  simpl in *. by rewrite <- !app_assoc in H.
Qed.

(** The first separator of a line is found where the label ends, when the
    label's name has no colon. *)
Lemma split_from_sep (a b cur : pystr) :
  forallb (fun c => negb (c =? 58)) a = true ->
  split_from SEP (a ++ SEP ++ b) 0 cur = (rev cur ++ a) :: split SEP b.
Proof.
  revert cur. induction a as [|c a IH]; intros cur H.
  - simpl. by rewrite app_nil_r.
  - simpl in H. apply andb_true_iff in H as [Hc Ha].
    apply negb_true_iff, N.eqb_neq in Hc.
    cbn [app split_from].
    assert (startswith (c :: a ++ SEP ++ b) SEP = false) as ->
      by (by apply (startswith_head _ [32] 58 c)).
    rewrite IH by done. simpl. by rewrite <- app_assoc.
Qed.

Lemma labelled_value (name v : pystr) :
  forallb (fun c => negb (c =? 58)) name = true ->
  contains v SEP = false ->
  split SEP ((name ++ [58]) ++ [32] ++ v) !! 1%nat = Some v.
Proof.
  intros Hn Hv. rewrite <- app_assoc.
  change ([58] ++ [32] ++ v) with (SEP ++ v).
  unfold split at 1. rewrite split_from_sep by done.
  by rewrite split_whole.
Qed.

(** ** Reading back what [save_data] wrote *)

Section Reading.
Context {RT : Runtime}.

Lemma load_line_date (v : pystr) (cur : option record) (w : world) :
  plain v = true ->
  load_line (DATE_PREFIX ++ [32] ++ v ++ NL) cur w
  = (Return (Some (Rec v [] IntZero [])),
     World (records w ++ option_list cur) (file w) (console w)).
Proof.
  intros Hv. unfold load_line. rewrite strip_labelled by done.
  rewrite startswith_app. unfold bind, item.
  change DATE_PREFIX with (utf8 "Дата" ++ [58]).
  rewrite labelled_value by auto using plain_no_sep.
  destruct cur; simpl; [done|]. by rewrite app_nil_r; destruct w.
Qed.

Lemma load_line_category (v : pystr) (r : record) (w : world) :
  plain v = true ->
  load_line (CATEGORY_PREFIX ++ [32] ++ v ++ NL) (Some r) w
  = (Return (Some (set_category v r)), w).
Proof.
  intros Hv. unfold load_line. rewrite strip_labelled by done.
  change (startswith _ DATE_PREFIX) with false. cbv iota.
  rewrite startswith_app. unfold bind, item.
  change CATEGORY_PREFIX with (utf8 "Категория" ++ [58]).
  by rewrite labelled_value by auto using plain_no_sep.
Qed.

Lemma load_line_amount (x : pyfloat) (r : record) (w : world) :
  prints_back x ->
  load_line (AMOUNT_PREFIX ++ [32] ++ str_of_float x ++ NL) (Some r) w
  = (Return (Some (set_amount (Float x) r)), w).
Proof.
  intros [Hv Hx]. unfold load_line. rewrite strip_labelled by done.
  change (startswith _ DATE_PREFIX) with false.
  change (startswith _ CATEGORY_PREFIX) with false. cbv iota.
  rewrite startswith_app. unfold bind, item, float.
  change AMOUNT_PREFIX with (utf8 "Сумма" ++ [58]).
  rewrite labelled_value by auto using plain_no_sep.
  simpl. by rewrite Hx.
Qed.

Lemma load_line_description (v : pystr) (r : record) (w : world) :
  plain v = true ->
  load_line (DESCRIPTION_PREFIX ++ [32] ++ v ++ NL) (Some r) w
  = (Return (Some (set_description v r)), w).
Proof.
  intros Hv. unfold load_line. rewrite strip_labelled by done.
  change (startswith _ DATE_PREFIX) with false.
  change (startswith _ CATEGORY_PREFIX) with false.
  change (startswith _ AMOUNT_PREFIX) with false. cbv iota.
  rewrite startswith_app. unfold bind, item.
  change DESCRIPTION_PREFIX with (utf8 "Описание" ++ [58]).
  by rewrite labelled_value by auto using plain_no_sep.
Qed.

Lemma load_line_blank (cur : option record) (w : world) :
  load_line NL cur w = (Return cur, w).
Proof. done. Qed.

Lemma load_loop_cons (l : pystr) (ls : list pystr)
    (cur : option record) (w : world) :
  load_loop (l :: ls) cur w
  = match load_line l cur w with
    | (Return r, w') => load_loop ls r w'
    | (Raise e, w') => (Raise e, w')
    end.
Proof. done. Qed.

(** The five lines of a block make its record the current one, after the
    record before it has been appended. *)
Lemma load_loop_block (r : record) (ls : list pystr)
    (cur : option record) (w : world) :
  storable r ->
  load_loop (block_lines r ++ ls) cur w
  = load_loop ls (Some r)
      (World (records w ++ option_list cur) (file w) (console w)).
Proof.
  intros (Hd & Hc & (x & Hx & Hp) & He).
  unfold block_lines.
  lazymatch goal with
  | |- context [ [?a; ?b; ?c; ?d; ?e] ++ ls ] =>
      change ([a; b; c; d; e] ++ ls) with (a :: b :: c :: d :: e :: ls)
  end.
  rewrite Hx. cbn [str_of_number].
  rewrite load_loop_cons, load_line_date by done.
  rewrite load_loop_cons, load_line_category by done.
  rewrite load_loop_cons, load_line_amount by done.
  rewrite load_loop_cons, load_line_description by done.
  rewrite load_loop_cons, load_line_blank.
  destruct r as [d c a e]. simpl in Hx. subst a. done.
Qed.

End Reading.

Lemma file_lines_line (l rest : pystr) :
  no_breaks l = true ->
  file_lines (l ++ NL ++ rest) = (l ++ NL) :: file_lines rest.
Proof.
  intros H. unfold file_lines, NL. cbn [app].
  by rewrite universal_newlines_line, readlines_line.
Qed.

Lemma file_lines_labelled (p v rest : pystr) :
  no_breaks p = true -> no_breaks v = true ->
  file_lines (p ++ [32] ++ v ++ NL ++ rest)
  = (p ++ [32] ++ v ++ NL) :: file_lines rest.
Proof.
  intros Hp Hv.
  replace (p ++ [32] ++ v ++ NL ++ rest) with ((p ++ [32] ++ v) ++ NL ++ rest)
    by (by rewrite <- !app_assoc).
  rewrite file_lines_line; [by rewrite <- !app_assoc|].
  rewrite !no_breaks_app, Hp, Hv. done.
Qed.

Section RoundTrip.
Context {RT : Runtime}.

Lemma file_lines_block (r : record) (rest : pystr) :
  storable r ->
  file_lines (block r ++ rest) = block_lines r ++ file_lines rest.
Proof.
  intros (Hd & Hc & (x & Hx & Hp & _) & He).
  unfold block, block_lines. rewrite Hx. cbn [str_of_number].
  rewrite <- !app_assoc.
  rewrite !file_lines_labelled by auto using plain_no_breaks.
  change (NL ++ rest) with ([] ++ NL ++ rest).
  by rewrite file_lines_line.
Qed.

Lemma file_lines_serialize (rs : list record) :
  Forall storable rs ->
  file_lines (serialize rs) = concat (map block_lines rs).
Proof.
  induction 1 as [|r rs Hr _ IH]; [done|].
  unfold serialize in *. cbn [map concat].
  by rewrite file_lines_block, IH.
Qed.

Lemma load_loop_blocks (rs : list record) (cur : option record) (w : world) :
  Forall storable rs ->
  (r <- load_loop (concat (map block_lines rs)) cur ;; append_if_any r) w
  = (Return tt,
     World (records w ++ option_list cur ++ rs) (file w) (console w)).
Proof.
  intros H. revert cur w. induction H as [|r rs Hr _ IH]; intros cur w.
  - rewrite app_nil_r. by destruct cur; [|rewrite app_nil_r; destruct w].
  - cbn [map concat]. unfold bind in *.
    rewrite load_loop_block by done. rewrite IH. cbn [records file console].
    by rewrite <- app_assoc.
Qed.

(** A fresh tracker built on a file that holds the blocks of storable
    records has exactly these records. *)
Lemma init_serialized (rs old : list record) (out : list pystr) :
  Forall storable rs ->
  init (World old (Some (serialize rs)) out)
  = (Return tt, World rs (Some (serialize rs)) out).
Proof.
  intros H. unfold init, load_data. cbn [file console].
  rewrite file_lines_serialize by done.
  by rewrite load_loop_blocks.
Qed.

End RoundTrip.

(** ** Dates of the strict shape and the two categories are plain values *)

Lemma date_char_cases (c : N) :
  date_char c = true ->
  isspace c = false /\ (c =? 58) = false /\ (c =? 10) = false
  /\ (c =? 13) = false.
Proof.
  unfold date_char. intros H.
  assert (c = 45 \/ 48 <= c <= 57) as Hc.
  { apply orb_true_iff in H as [H|H].
    - apply andb_true_iff in H as [H1 H2].
      apply N.leb_le in H1, H2. lia.
    - apply N.eqb_eq in H. lia. }
  assert (c = 45 \/ c = 48 \/ c = 49 \/ c = 50 \/ c = 51 \/ c = 52 \/ c = 53
          \/ c = 54 \/ c = 55 \/ c = 56 \/ c = 57) as Hd by lia.
  clear H Hc. repeat destruct Hd as [->|Hd]; try subst c; done.
Qed.

Lemma no_colon_no_sep (s : pystr) :
  forallb (fun c => negb (c =? 58)) s = true -> contains s SEP = false.
Proof.
  induction s as [|c s IH]; [done|]. intros H. simpl in H.
  apply andb_true_iff in H as [Hc Hs].
  apply negb_true_iff, N.eqb_neq in Hc.
  rewrite contains_unfold, IH by done.
  assert (startswith (c :: s) SEP = false) as ->; [|done].
  by apply (startswith_head _ [32] 58 c).
Qed.

Lemma date_chars_plain (c : N) (s : pystr) :
  forallb date_char (c :: s) = true -> plain (c :: s) = true.
Proof.
  intros H. unfold plain.
  assert (forall z, z ∈ c :: s -> date_char z = true) as Hall.
  { intros z Hz. rewrite forallb_forall in H. apply H.
    by apply list_elem_of_In. }
  apply andb_true_iff; split; [apply andb_true_iff; split|].
  - destruct (list.last (c :: s)) as [z|] eqn:Hl.
    + destruct (date_char_cases z) as [-> _]; [|done].
      by apply Hall, last_Some_elem_of.
    + by apply last_None in Hl.
  - unfold no_breaks. apply forallb_forall. intros z Hz.
    apply list_elem_of_In, Hall, date_char_cases in Hz as (_ & _ & -> & ->).
    done.
  - apply negb_true_iff, no_colon_no_sep, forallb_forall. intros z Hz.
    apply list_elem_of_In, Hall, date_char_cases in Hz as (_ & -> & _).
    done.
Qed.

Lemma iso_date_plain (d : pystr) : iso_date d = true -> plain d = true.
Proof.
  intros H.
  do 10 (destruct d as [|? d]; [done|]). destruct d; [|done].
  apply date_chars_plain. unfold iso_date, ascii_digits in H.
  cbn [forallb] in *. unfold date_char.
  rewrite !andb_true_iff in H.
  rewrite !andb_true_iff, !orb_true_iff, !andb_true_iff.
  intuition.
Qed.

Lemma sentinels_plain : plain INCOME = true /\ plain EXPENSE = true.
Proof. done. Qed.

Lemma well_formed_storable `{RT : Runtime} (r : record) :
  well_formed r -> storable r.
Proof.
  intros (Hd & Hc & Ha & He). repeat split; try done.
  - by apply iso_date_plain.
  - by destruct Hc as [-> | ->].
Qed.

(** ** Saving and loading again *)

(** X21: a list of well-formed records, that is, records with a date of
    the shape [YYYY-MM-DD], one of the two categories, an amount that
    [str] shows as text that [float] reads back, and a description that
    ends with a character that is not white space (so it is not empty)
    and has no line break and no [": "], is what a fresh tracker loads
    from the file that [save_data] wrote: the same records, field by
    field, in the same order. *)
Theorem save_then_load `{RT : Runtime} (w : world) (out : list pystr) :
  Forall well_formed (records w) ->
  init (World [] (file (save_data w).2) out)
  = (Return tt, World (records w) (file (save_data w).2) out).
Proof.
  intros H. cbn [save_data snd file].
  apply init_serialized.
  induction H; constructor; auto using well_formed_storable.
Qed.

Ltac field_by_evaluation :=
  lazymatch goal with
  | |- _ \/ _ => first [ left; reflexivity | right; reflexivity ]
  | |- exists x, _ = Float x /\ _ =>
      eexists; split; [reflexivity|split; vm_compute; reflexivity]
  | |- _ = _ => vm_compute; reflexivity
  end.

Ltac well_formed_by_evaluation :=
  repeat (apply List.Forall_cons;
          [repeat (split; [field_by_evaluation|]); field_by_evaluation|]);
  apply List.Forall_nil.

Lemma save_then_load_witness :
  Forall well_formed sample_ledger
  /\ init (World [] (file (save_data (World sample_ledger None [])).2) [])
     = (Return tt,
        World sample_ledger
          (file (save_data (World sample_ledger None [])).2) []).
Proof.
  assert (Forall (@well_formed decimal_runtime) sample_ledger) as H
    by (unfold sample_ledger; well_formed_by_evaluation).
  split; [exact H|].
  exact (@save_then_load decimal_runtime (World sample_ledger None []) [] H).
Defined.

(** C1, on the code: a record with a date of the strict shape, a
    category, a float amount and the free-form description ["a: b"] is
    written whole by [save_data], and a fresh tracker loads it from that
    file with the description ["a"]: the list loaded is not the list
    saved. *)
Theorem save_then_load_cuts_description :
  Forall (fun r => iso_date (date r) = true
                   /\ (category r = INCOME \/ category r = EXPENSE)
                   /\ exists x, amount r = Float x /\ prints_back x)
         colon_ledger
  /\ file (save_data (World colon_ledger None [])).2 = Some colon_file
  /\ init (World [] (Some colon_file) [])
     = (Return tt,
        World [Rec (utf8 "2024-01-01") EXPENSE (Float (Dec 50 0)) (utf8 "a")]
              (Some colon_file) [])
  /\ records (init (World [] (Some colon_file) [])).2 <> colon_ledger.
Proof.
  split; [|split; [|split]].
  - unfold colon_ledger. well_formed_by_evaluation.
  - reflexivity.
  - reflexivity.
  - intros H.
    apply (f_equal (fun rs => description <$> rs)) in H.
    vm_compute in H. discriminate.
Qed.

(** Each condition on the description is needed: an empty description
    makes the load fail with [IndexError], white space at the end is
    stripped, a line break ends the line, and a separator cuts the value. *)
Example description_conditions :
  reloaded (one_entry []) = (Raise IndexError, [])
  /\ reloaded (one_entry (utf8 "x ")) = (Return tt, [utf8 "x"])
  /\ reloaded (one_entry (utf8 "x" ++ NL ++ utf8 "y")) = (Return tt, [utf8 "x"])
  /\ reloaded (one_entry (utf8 "a: b")) = (Return tt, [utf8 "a"])
  /\ reloaded (one_entry (utf8 "x")) = (Return tt, [utf8 "x"]).
Proof. repeat split; vm_compute; reflexivity. Qed.

(** ** The value of a labelled line *)

(** C3, on the code: [line.split(': ')] cuts at every separator and [[1]]
    is the piece between the first and the second one.  The line
    ["Описание: a: b"] gives the description ["a"], not the rest of the
    line ["a: b"]: [load_data] on the file that [save_data] wrote for the
    description ["a: b"] yields the description ["a"]. *)
Theorem description_line_is_cut
    (r : @record decimal_runtime) (w : @world decimal_runtime) :
  split SEP (strip (utf8 "Описание: a: b" ++ NL))
  = [utf8 "Описание"; utf8 "a"; utf8 "b"]
  /\ load_line (utf8 "Описание: a: b" ++ NL) (Some r) w
     = (Return (Some (set_description (utf8 "a") r)), w)
  /\ utf8 "a" <> utf8 "a: b"
  /\ description <$> records (init (World [] (Some colon_file) [])).2
     = [utf8 "a"].
Proof.
  split; [reflexivity|]. split; [reflexivity|]. split; [|reflexivity].
  intros H. vm_compute in H. discriminate.
Qed.

(** ** Editing and deleting by index *)

(** C4: with an index below [0] or not below the number of records,
    [edit_record] and [delete_record] end normally, print the complaint and
    leave the records and the file as they are; with an index in range,
    [edit_record] puts the new record at that position and changes no
    other, [delete_record] removes the record at that position and moves
    the later ones down by one, and each writes the new list to the
    file. *)
Theorem index_guard `{RT : Runtime} (w : world) (index : Z)
    (d c : pystr) (a : number) (e : pystr) :
  ((index < 0 \/ Z.of_nat (length (records w)) <= index)%Z ->
   edit_record index d c a e w
   = (Return tt, World (records w) (file w) (console w ++ [BAD_INDEX]))
   /\ delete_record index w
      = (Return tt, World (records w) (file w) (console w ++ [BAD_INDEX])))
  /\ ((0 <= index < Z.of_nat (length (records w)))%Z ->
      (exists rs,
          edit_record index d c a e w
          = (Return tt, World rs (Some (serialize rs)) (console w))
          /\ length rs = length (records w)
          /\ rs !! Z.to_nat index = Some (Rec d c a e)
          /\ forall j, j <> Z.to_nat index -> rs !! j = records w !! j)
      /\ (exists rs,
             delete_record index w
             = (Return tt, World rs (Some (serialize rs)) (console w))
             /\ S (length rs) = length (records w)
             /\ (forall j, (j < Z.to_nat index)%nat -> rs !! j = records w !! j)
             /\ (forall j, (Z.to_nat index <= j)%nat ->
                           rs !! j = records w !! S j))).
Proof.
  split.
  - intros H. unfold edit_record, delete_record, out_of_range.
    assert (((index <? 0) || (Z.of_nat (length (records w)) <=? index))%Z
            = true) as ->; [|done].
    apply orb_true_iff. destruct H; [left|right]; lia.
  - intros H. unfold edit_record, delete_record, out_of_range.
    assert (((index <? 0) || (Z.of_nat (length (records w)) <=? index))%Z
            = false) as ->.
    { apply orb_false_iff. split; lia. }
    assert (Z.to_nat index < length (records w))%nat as Hi by lia.
    split;
      [exists (<[Z.to_nat index := Rec d c a e]> (records w))
      |exists (delete (Z.to_nat index) (records w))];
      (split; [reflexivity|]).
    + rewrite length_insert. split; [done|]. split.
      * by apply list_lookup_insert_eq.
      * intros j Hj. by apply list_lookup_insert_ne.
    + split; [|split].
      * rewrite length_delete by by apply lookup_lt_is_Some_2. lia.
      * intros j Hj. by apply list_lookup_delete_lt.
      * intros j Hj. by apply list_lookup_delete_ge.
Qed.

Lemma index_guard_witness :
  ((5 < 0 \/ Z.of_nat (length sample_ledger) <= 5)%Z
   /\ delete_record 5 (World sample_ledger None [])
      = (Return tt, World sample_ledger None [BAD_INDEX]))
  /\ ((0 <= 1 < Z.of_nat (length sample_ledger))%Z
      /\ exists rs,
          delete_record 1 (World sample_ledger None [])
          = (Return tt, World rs (Some (serialize rs)) [])
          /\ S (length rs) = length sample_ledger
          /\ (forall j, (j < 1)%nat -> rs !! j = sample_ledger !! j)
          /\ (forall j, (1 <= j)%nat -> rs !! j = sample_ledger !! S j)).
Proof.
  split.
  - assert (5 < 0 \/ Z.of_nat (length sample_ledger) <= 5)%Z as H
      by (right; unfold sample_ledger; simpl; lia).
    split; [exact H|].
    exact (proj2 (proj1 (@index_guard decimal_runtime
             (World sample_ledger None []) 5 [] [] IntZero []) H)).
  - assert (0 <= 1 < Z.of_nat (length sample_ledger))%Z as H
      by (unfold sample_ledger; simpl; lia).
    split; [exact H|].
    exact (proj2 (proj2 (@index_guard decimal_runtime
             (World sample_ledger None []) 1 [] [] IntZero []) H)).
Defined.

(** ** A tracker without a file *)

(** C6: when there is no file, [load_data] ends normally and changes
    nothing, so the tracker under construction has no records. *)
Theorem missing_file `{RT : Runtime} (w : world) :
  file w = None ->
  load_data w = (Return tt, w)
  /\ init w = (Return tt, World [] None (console w)).
Proof.
  intros H. unfold init, load_data. cbn [file]. by rewrite H.
Qed.

Lemma missing_file_witness :
  file (World sample_ledger None []) = None
  /\ load_data (World sample_ledger None [])
     = (Return tt, World sample_ledger None [])
  /\ init (World sample_ledger None []) = (Return tt, World [] None []).
Proof.
  split; [reflexivity|].
  exact (@missing_file decimal_runtime (World sample_ledger None [])
           eq_refl).
Defined.

(** ** Searching *)

Section Searching.
Context {RT : Runtime}.

Lemma matches_matching (q : pystr) (r : record) :
  matches q r = true <-> matching q r.
Proof.
  unfold matches, matching, substring.
  rewrite !orb_true_iff, !contains_factor, bool_decide_eq_true.
  tauto.
Qed.

Lemma search_loop_hits (q : pystr) (i : nat) (rs : list record) (w : world) :
  search_loop q i rs w
  = (Return tt,
     World (records w) (file w)
       (console w ++ map (fun p => search_line p.1 p.2) (search_hits q i rs))).
Proof.
  revert i w. induction rs as [|r rs IH]; intros i w.
  - simpl. rewrite app_nil_r. by destruct w.
  - cbn [search_loop search_hits]. unfold bind.
    destruct (matches q r).
    + unfold print at 1. rewrite IH. cbn [records file console map app fst snd].
      by rewrite <- app_assoc.
    + unfold ret at 1. by rewrite IH.
Qed.

Lemma elem_of_search_hits (q : pystr) (rs : list record) (i j : nat)
    (r : record) :
  (j, r) ∈ search_hits q i rs
  <-> exists k, j = (i + k)%nat /\ rs !! k = Some r /\ matches q r = true.
Proof.
  revert i. induction rs as [|x rs IH]; intros i; cbn [search_hits].
  - split; [by intros ?%elem_of_nil|by intros (k & _ & ? & _)].
  - rewrite elem_of_app, IH. split.
    + intros [H|(k & -> & Hk & Hm)].
      * destruct (matches q x) eqn:Hx; [|by apply elem_of_nil in H].
        apply list_elem_of_singleton in H. injection H as -> ->.
        exists 0%nat. by rewrite Nat.add_0_r.
      * exists (S k). split; [lia|done].
    + intros ([|k] & -> & Hk & Hm).
      * left. injection Hk as ->. rewrite Hm, Nat.add_0_r.
        by apply list_elem_of_singleton.
      * right. exists k. split; [lia|done].
Qed.

Lemma search_hits_sorted (q : pystr) (rs : list record) (i : nat) :
  StronglySorted (fun p p' : nat * record => (p.1 < p'.1)%nat)
    (search_hits q i rs).
Proof.
  revert i. induction rs as [|x rs IH]; intros i; cbn [search_hits].
  - constructor.
  - destruct (matches q x); [|apply IH]. cbn. constructor; [apply IH|].
    apply Forall_forall. intros [j r] Hj.
    apply elem_of_search_hits in Hj as (k & -> & _). cbn. lia.
Qed.

End Searching.

(** C7: [search_records] ends normally, changes neither the records nor
    the file, and prints one line for each match, in index order; the
    record at position [i] is a match exactly when the query is a
    substring of its date, or a substring of its category, or equal to the
    string form of its amount.  The description plays no part: a record
    whose description contains the query and whose other fields do not
    match is not a match. *)
Theorem search_records_matches `{RT : Runtime} (q : pystr) (w : world) :
  exists hits : list (nat * record),
    search_records q w
    = (Return tt,
       World (records w) (file w)
         (console w ++ map (fun p => search_line p.1 p.2) hits))
    /\ (forall i r, (i, r) ∈ hits <-> records w !! i = Some r /\ matching q r)
    /\ StronglySorted (fun p p' : nat * record => (p.1 < p'.1)%nat) hits
    /\ (forall i r,
          records w !! i = Some r -> substring q (description r) ->
          ~ substring q (date r) -> ~ substring q (category r) ->
          str_of_number (amount r) <> q ->
          (i, r) ∉ hits).
Proof.
  exists (search_hits q 0 (records w)).
  assert (forall i r, (i, r) ∈ search_hits q 0 (records w)
                      <-> records w !! i = Some r /\ matching q r) as Hin.
  { intros i r. rewrite elem_of_search_hits. split.
    - intros (k & -> & Hk & Hm). by apply matches_matching in Hm.
    - intros [Hk Hm]. exists i. by apply matches_matching in Hm. }
  split; [apply search_loop_hits|]. split; [exact Hin|].
  split; [apply search_hits_sorted|].
  intros i r _ _ Hd Hc Ha [_ [?|[?|?]]]%Hin; done.
Qed.

Lemma search_records_matches_witness :
  exists hits : list (nat * record),
    search_records (utf8 "x") (World fifty None [])
    = (Return tt,
       World fifty None ([] ++ map (fun p => search_line p.1 p.2) hits))
    /\ forall r, fifty !! 0%nat = Some r -> (0%nat, r) ∉ hits.
Proof.
  destruct (@search_records_matches decimal_runtime (utf8 "x")
              (World fifty None [])) as (hits & Hrun & _ & _ & Hdesc).
  exists hits. split; [exact Hrun|].
  intros r Hr. apply Hdesc; [exact Hr|..]; injection Hr as <-.
  - by exists [], [].
  - intros H%contains_factor. vm_compute in H. discriminate.
  - intros H%contains_factor. vm_compute in H. discriminate.
  - intros H. vm_compute in H. discriminate.
Defined.

(** The example of the specification: the record of 50.0 is found by its
    category, by its amount and by its date, and not by its description. *)
Example search_example :
  let w := World fifty None [] in
  let found := [search_line 0 (Rec (utf8 "2024-01-01") INCOME
                                   (Float (Dec 50 0)) (utf8 "x"))] in
  console (search_records INCOME w).2 = found
  /\ console (search_records (utf8 "50.0") w).2 = found
  /\ console (search_records (utf8 "2024-01-01") w).2 = found
  /\ console (search_records (utf8 "x") w).2 = [].
Proof. repeat split; reflexivity. Qed.

(** C9: with the empty query every record is a match, because the empty
    string is a substring of every date: [search_records] prints the line
    of every record, in order. *)
Theorem search_empty_query `{RT : Runtime} (w : world) :
  (forall r, contains (date r) [] = true /\ matches [] r = true)
  /\ search_records [] w
     = (Return tt,
        World (records w) (file w) (console w ++ imap search_line (records w))).
Proof.
  assert (forall r, matches [] r = true) as Hm.
  { intros r. unfold matches. by rewrite contains_nil. }
  split; [intros r; by rewrite contains_nil|].
  unfold search_records. rewrite search_loop_hits. f_equal. f_equal. f_equal.
  change (imap search_line (records w))
    with (imap (fun k => search_line (0 + k)) (records w)).
  generalize 0%nat as i. generalize (records w) as rs.
  induction rs as [|r rs IH]; intros i; [done|].
  cbn [search_hits]. rewrite Hm, imap_cons. cbn [app map fst snd].
  rewrite Nat.add_0_r, IH. f_equal.
  apply imap_ext. intros k x _. unfold compose. f_equal. lia.
Qed.

(** ** The balance *)

Lemma amounts_of_filter `{RT : Runtime} (c : pystr) (rs : list record) :
  map amount (filter (fun r => category r = c) rs) = amounts_of c rs.
Proof.
  induction rs as [|r rs IH]; [done|].
  rewrite filter_cons. cbn [amounts_of].
  destruct (decide (category r = c)); [cbn [map]|]; by rewrite IH.
Qed.

(** C8: [show_balance] ends normally, changes neither the records nor the
    file, and prints the balance, the income and the expense, where the
    income is the sum of the amounts of the records of category [INCOME],
    the expense the sum of those of category [EXPENSE], and the balance
    is income minus expense.  For the amounts 100 (income), 40 (expense)
    and 5 (income) it shows 65.0, 105.0 and 40.0. *)
Theorem show_balance_totals :
  (forall (RT : Runtime) (w : world),
      let income := py_sum (amounts_of INCOME (records w)) in
      let expense := py_sum (amounts_of EXPENSE (records w)) in
      show_balance w
      = (Return tt,
         World (records w) (file w)
           (console w
            ++ [BALANCE_TEXT ++ str_of_number (sub income expense);
                INCOME_TEXT ++ str_of_number income;
                EXPENSE_TEXT ++ str_of_number expense])))
  /\ (total INCOME sample_ledger = Float (Dec 105 0)
      /\ total EXPENSE sample_ledger = Float (Dec 40 0)
      /\ sub (total INCOME sample_ledger) (total EXPENSE sample_ledger)
         = Float (Dec 65 0)
      /\ show_balance (World sample_ledger None [])
         = (Return tt,
            World sample_ledger None
              [utf8 "Текущий баланс: 65.0"; utf8 "Общий доход: 105.0";
               utf8 "Общий расход: 40.0"])).
Proof.
  split.
  - intros RT w income expense. unfold show_balance, total.
    rewrite !amounts_of_filter. fold income expense.
    unfold bind, print. cbn [records file console].
    by rewrite <- !app_assoc.
  - repeat split; reflexivity.
Qed.

(** ** Amount lines that are not numbers *)

Section Failing.
Context {RT : Runtime}.

Lemma load_loop_app (pre post : list pystr) (cur : option record) (w : world) :
  load_loop (pre ++ post) cur w
  = match load_loop pre cur w with
    | (Return r, w') => load_loop post r w'
    | (Raise e, w') => (Raise e, w')
    end.
Proof.
  revert cur w. induction pre as [|l pre IH]; intros cur w; [done|].
  cbn [app]. rewrite !load_loop_cons.
  destruct (load_line l cur w) as [[r|e] w']; [apply IH|done].
Qed.

Lemma amount_prefix_only (s : pystr) :
  startswith s AMOUNT_PREFIX = true ->
  startswith s DATE_PREFIX = false /\ startswith s CATEGORY_PREFIX = false.
Proof. intros [t ->]%startswith_prefix. done. Qed.

(** [float] fails before the assignment is attempted, whatever [record]
    holds. *)
Lemma load_line_bad_amount (line v : pystr) (cur : option record) (w : world) :
  startswith (strip line) AMOUNT_PREFIX = true ->
  split SEP (strip line) !! 1%nat = Some v ->
  float_of_str v = None ->
  load_line line cur w = (Raise ValueError, w).
Proof.
  intros Hp Hv Hf. unfold load_line.
  destruct (amount_prefix_only _ Hp) as [-> ->]. rewrite Hp.
  unfold bind, item, float. by rewrite Hv; cbn; rewrite Hf.
Qed.






End Failing.

(** X23: when a line of the file starts, once stripped, with the amount
    label and the piece that [load_data] takes from it (piece 1 of the
    split at [": "]) is text that [float] refuses, [load_data] does not
    end normally.  When the lines before that line are processed without
    error it raises the [ValueError] of [float] at that line; otherwise
    it raises what the first failing line before it raises.  In both
    cases the tracker is left as it was at the failing line. *)
Theorem malformed_amount_fails `{RT : Runtime} (w : world) (text : pystr)
    (pre post : list pystr) (line v : pystr) :
  file w = Some text ->
  file_lines text = pre ++ line :: post ->
  startswith (strip line) AMOUNT_PREFIX = true ->
  split SEP (strip line) !! 1%nat = Some v ->
  float_of_str v = None ->
  exists e w',
    load_data w = (Raise e, w')
    /\ (forall cur w1,
          load_loop pre None w = (Return cur, w1) ->
          e = ValueError /\ w' = w1)
    /\ (forall e1 w1,
          load_loop pre None w = (Raise e1, w1) -> e = e1 /\ w' = w1).
Proof.
  intros Hf Hl Hp Hs Hv. unfold load_data. rewrite Hf, Hl.
  unfold bind at 1. rewrite load_loop_app.
  destruct (load_loop pre None w) as [[cur|e] w1].
  - rewrite load_loop_cons.
    rewrite (load_line_bad_amount line v) by done.
    exists ValueError, w1. split; [done|]. split; [|done].
    intros ? ? [= <- <-]. done.
  - exists e, w1. split; [done|]. split; [done|].
    intros ? ? [= <- <-]. done.
Qed.

Lemma malformed_amount_fails_witness :
  let w := World [] (Some (utf8 "Дата: 2024-01-01" ++ NL
                           ++ utf8 "Сумма: abc: 12" ++ NL)) [] in
  let line := utf8 "Сумма: abc: 12" ++ NL in
  (file_lines (utf8 "Дата: 2024-01-01" ++ NL ++ utf8 "Сумма: abc: 12" ++ NL)
   = [utf8 "Дата: 2024-01-01" ++ NL] ++ line :: []
   /\ startswith (strip line) AMOUNT_PREFIX = true
   /\ split SEP (strip line) !! 1%nat = Some (utf8 "abc")
   /\ float_of_str (utf8 "abc") = None)
  /\ exists e w',
      load_data w = (Raise e, w')
      /\ (forall cur w1,
            load_loop [utf8 "Дата: 2024-01-01" ++ NL] None w
            = (Return cur, w1) ->
            e = ValueError /\ w' = w1)
      /\ (forall e1 w1,
            load_loop [utf8 "Дата: 2024-01-01" ++ NL] None w
            = (Raise e1, w1) ->
            e = e1 /\ w' = w1).
Proof.
  split; [repeat split; reflexivity|].
  exact (@malformed_amount_fails decimal_runtime
           (World [] (Some (utf8 "Дата: 2024-01-01" ++ NL
                            ++ utf8 "Сумма: abc: 12" ++ NL)) [])
           _ [utf8 "Дата: 2024-01-01" ++ NL] [] (utf8 "Сумма: abc: 12" ++ NL)
           (utf8 "abc")
           eq_refl eq_refl eq_refl eq_refl eq_refl).
Defined.

(** C5, on the code: the file [twelve_file] has an amount line whose
    value part, the text after the first separator, is ["12: abc"], which
    [float] refuses; yet [load_data] ends normally and the record has the
    amount 12: the load does not fail. *)
Theorem malformed_amount_accepted :
  (exists line,
      line ∈ file_lines twelve_file
      /\ startswith (strip line) AMOUNT_PREFIX = true
      /\ after_first_sep (strip line) = Some (utf8 "12: abc")
      /\ float_of_str (utf8 "12: abc") = None)
  /\ init (World [] (Some twelve_file) [])
     = (Return tt,
        World [Rec (utf8 "2024-01-01") [] (Float (Dec 12 0)) []]
              (Some twelve_file) []).
Proof.
  split; [|reflexivity].
  exists (utf8 "Сумма: 12: abc" ++ NL).
  split; [|repeat split; reflexivity].
  apply list_elem_of_further, list_elem_of_here.
Qed.

(** Lines before the amount line fail first: a category line without a
    date line before it raises [AttributeError], a date line without
    separator raises [IndexError], and an amount line that is no number
    raises [ValueError] before a later one is read. *)
Example earlier_lines_fail_first :
  (init (World [] (Some (utf8 "Категория: x" ++ NL
                         ++ utf8 "Сумма: abc" ++ NL)) [])).1
  = Raise AttributeError
  /\ (init (World [] (Some (utf8 "Дата:" ++ NL
                            ++ utf8 "Сумма: abc" ++ NL)) [])).1
     = Raise IndexError
  /\ (init (World [] (Some (utf8 "Дата: 2024-01-01" ++ NL
                            ++ utf8 "Сумма: abc: 12" ++ NL
                            ++ utf8 "Сумма: xyz" ++ NL)) [])).1
     = Raise ValueError.
Proof. repeat split; reflexivity. Qed.

(** ** What a failed load leaves behind *)



(** ** Valid dates *)

Section ValidDates.
Context {RT : Runtime}.

Lemma range_inside (lo hi c : N) :
  lo <= c <= hi -> range lo hi c = Some (c - 48).
Proof.
  intros [H1 H2]. unfold range.
  apply N.leb_le in H1, H2. by rewrite H1, H2.
Qed.

Lemma range_outside (lo hi c : N) :
  c < lo \/ hi < c -> range lo hi c = None.
Proof.
  intros H. unfold range.
  destruct (lo <=? c) eqn:H1; [|done].
  destruct (c <=? hi) eqn:H2; [|done].
  apply N.leb_le in H1, H2. lia.
Qed.

Lemma range_Some (lo hi c v : N) :
  range lo hi c = Some v -> lo <= c <= hi /\ v = c - 48.
Proof.
  unfold range. destruct (lo <=? c) eqn:H1; [|done].
  destruct (c <=? hi) eqn:H2; [|done].
  apply N.leb_le in H1, H2. intros [= <-]. done.
Qed.

Lemma space_Some (c v : N) : space c = Some v -> c = 32 /\ v = 0.
Proof.
  unfold space. destruct (c =? 32) eqn:H; [|done].
  apply N.eqb_eq in H. by intros [= <-].
Qed.

Lemma one_Some (p : N -> option N) (s r : pystr) (v : N) :
  one p s = Some (v, r) -> exists a, s = a :: r /\ p a = Some v.
Proof.
  destruct s as [|a s]; [done|]. cbn.
  destruct (p a) eqn:Ha; [|done]. intros [= <- <-]. by exists a.
Qed.

Lemma two_Some (p q : N -> option N) (s r : pystr) (v : N) :
  two p q s = Some (v, r) ->
  exists a b va vb,
    s = a :: b :: r /\ p a = Some va /\ q b = Some vb /\ v = 10 * va + vb.
Proof.
  destruct s as [|a [|b s]]; [done..|]. cbn.
  destruct (p a) as [va|] eqn:Ha; [|done]. cbn.
  destruct (q b) as [vb|] eqn:Hb; [|done]. intros [= <- <-].
  by exists a, b, va, vb.
Qed.

Lemma head_omap_Some {A B} (f : A -> option B) (l : list A) (x : B) :
  head (omap f l) = Some x -> exists a, a ∈ l /\ f a = Some x.
Proof.
  induction l as [|a l IH]; [done|]. simpl.
  destruct (f a) as [y|] eqn:E.
  - intros [= ->]. exists a. split; [left|done].
  - intros (a' & ? & ?)%IH. exists a'. split; [by right|done].
Qed.

(** The first alternative after which the rest of the pattern succeeds
    is one of the alternatives. *)
Lemma directive_Some {A} (alts : list (pystr -> option (N * pystr)))
    (k : N -> pystr -> option A) (s : pystr) (x : A) :
  directive alts k s = Some x ->
  exists alt v r, alt ∈ alts /\ alt s = Some (v, r) /\ k v r = Some x.
Proof.
  unfold directive. intros (alt & Hin & H)%head_omap_Some.
  destruct (alt s) as [[v r]|] eqn:Ha; [|done].
  by exists alt, v, r.
Qed.

Lemma literal_Some (c : N) (s r : pystr) :
  literal c s = Some r -> s = c :: r.
Proof.
  destruct s as [|a s]; [done|]. cbn.
  destruct (a =? c) eqn:E; [|done]. apply N.eqb_eq in E as ->.
  by intros [= ->].
Qed.

Ltac alternatives H :=
  repeat (apply elem_of_cons in H as [->|H]); [..|by apply elem_of_nil in H].

Lemma year_alt (alt : pystr -> option (N * pystr)) (s r : pystr) (y : N) :
  alt ∈ year_directive -> alt s = Some (y, r) ->
  exists t, s = t ++ r /\ year_text t y.
Proof.
  intros Hin H. alternatives Hin. unfold four, digit in H.
  destruct s as [|a [|b [|c [|d s]]]]; [done..|].
  destruct (decimal_digit a) as [va|] eqn:Ha; [|done].
  destruct (decimal_digit b) as [vb|] eqn:Hb; [|done].
  destruct (decimal_digit c) as [vc|] eqn:Hc; [|done].
  destruct (decimal_digit d) as [vd|] eqn:Hd; [|done].
  cbn in H. injection H as <- <-.
  exists [a; b; c; d]. split; [done|]. by constructor.
Qed.

Lemma month_alt (alt : pystr -> option (N * pystr)) (s r : pystr) (m : N) :
  alt ∈ month_directive -> alt s = Some (m, r) ->
  exists t, s = t ++ r /\ month_text t m.
Proof.
  intros Hin H. alternatives Hin.
  - apply two_Some in H
      as (a & b & va & vb & -> & [Ha ->]%range_Some & [Hb ->]%range_Some & ->).
    assert (a = 49) as -> by lia. exists [49; b]. split; [done|].
    replace (10 * (49 - 48) + (b - 48)) with (10 + (b - 48)) by lia.
    by constructor.
  - apply two_Some in H
      as (a & b & va & vb & -> & [Ha ->]%range_Some & [Hb ->]%range_Some & ->).
    assert (a = 48) as -> by lia. exists [48; b]. split; [done|].
    replace (10 * (48 - 48) + (b - 48)) with (b - 48) by lia.
    by constructor.
  - apply one_Some in H as (a & -> & [Ha ->]%range_Some).
    exists [a]. split; [done|]. by constructor.
Qed.

Lemma day_alt (alt : pystr -> option (N * pystr)) (s r : pystr) (d : N) :
  alt ∈ day_directive -> alt s = Some (d, r) ->
  exists t, s = t ++ r /\ day_text t d.
Proof.
  intros Hin H. alternatives Hin.
  - apply two_Some in H
      as (a & b & va & vb & -> & [Ha ->]%range_Some & [Hb ->]%range_Some & ->).
    assert (a = 51) as -> by lia. exists [51; b]. split; [done|].
    replace (10 * (51 - 48) + (b - 48)) with (30 + (b - 48)) by lia.
    by constructor.
  - apply two_Some in H
      as (a & b & va & vb & -> & [Ha ->]%range_Some & Hb & ->).
    exists [a; b]. split; [done|]. by constructor.
  - apply two_Some in H
      as (a & b & va & vb & -> & [Ha ->]%range_Some & [Hb ->]%range_Some & ->).
    assert (a = 48) as -> by lia. exists [48; b]. split; [done|].
    replace (10 * (48 - 48) + (b - 48)) with (b - 48) by lia.
    by constructor.
  - apply one_Some in H as (a & -> & [Ha ->]%range_Some).
    exists [a]. split; [done|]. by constructor.
  - apply two_Some in H
      as (a & b & va & vb & -> & [-> ->]%space_Some & [Hb ->]%range_Some & ->).
    exists [32; b]. split; [done|].
    replace (10 * 0 + (b - 48)) with (b - 48) by lia. by constructor.
Qed.

Lemma month_text_bounds (t : pystr) (m : N) : month_text t m -> 1 <= m <= 12.
Proof. destruct 1; lia. Qed.

Lemma day_text_positive (t : pystr) (d : N) : day_text t d -> 1 <= d.
Proof. destruct 1; lia. Qed.

Lemma directive_cons {A} (alt : pystr -> option (N * pystr))
    (alts : list (pystr -> option (N * pystr)))
    (k : N -> pystr -> option A) (s : pystr) :
  directive (alt :: alts) k s
  = match alt s with
    | Some (v, r) =>
        match k v r with
        | Some x => Some x
        | None => directive alts k s
        end
    | None => directive alts k s
    end.
Proof.
  unfold directive. simpl. destruct (alt s) as [[v r]|]; [|done].
  simpl. by destruct (k v r).
Qed.

Lemma two_cons (p q : N -> option N) (a b : N) (r : pystr) :
  two p q (a :: b :: r)
  = match p a, q b with
    | Some va, Some vb => Some (10 * va + vb, r)
    | _, _ => None
    end.
Proof. cbn. destruct (p a); [|done]. cbn. by destruct (q b). Qed.

Lemma year_complete {A} (t rest : pystr) (y : N)
    (k : N -> pystr -> option A) :
  year_text t y -> directive year_directive k (t ++ rest) = k y rest.
Proof.
  destruct 1 as [a b c d va vb vc vd Ha Hb Hc Hd].
  unfold year_directive. rewrite directive_cons.
  cbn [app four]. unfold digit. rewrite Ha, Hb, Hc, Hd. cbn.
  by destruct (k _ rest).
Qed.

Lemma month_complete {A} (t rest : pystr) (m : N)
    (k : N -> pystr -> option A) (x : A) :
  month_text t m -> k m (45 :: rest) = Some x ->
  directive month_directive k (t ++ 45 :: rest) = Some x.
Proof.
  destruct 1 as [c Hc|c Hc|c Hc]; intros Hk; unfold month_directive;
    cbn [app]; rewrite !directive_cons, ?two_cons.
  - rewrite (range_outside 48 50 45), (range_outside 48 48 c) by lia.
    destruct (range 49 49 c); cbn [one].
    all: rewrite range_inside by lia; cbn; by rewrite Hk.
  - rewrite (range_outside 49 49 48), (range_inside 48 48 48),
      (range_inside 49 57 c) by lia.
    replace (10 * (48 - 48) + (c - 48)) with (c - 48) by lia.
    by rewrite Hk.
  - rewrite (range_inside 49 49 49), (range_inside 48 50 c) by lia.
    replace (10 * (49 - 48) + (c - 48)) with (10 + (c - 48)) by lia.
    by rewrite Hk.
Qed.

Lemma day_complete {A} (t : pystr) (d : N)
    (k : N -> pystr -> option A) (x : A) :
  day_text t d -> k d [] = Some x ->
  directive day_directive k t = Some x.
Proof.
  destruct 1 as [c Hc|c Hc|c Hc|a b vb Ha Hb|c Hc]; intros Hk;
    unfold day_directive; rewrite !directive_cons, ?two_cons.
  - cbn [two one]. rewrite range_inside by lia. cbn [mbind option_bind]. by rewrite Hk.
  - rewrite (range_outside 51 51 32), (range_outside 49 50 32),
      (range_outside 48 48 32) by lia.
    cbn [one]. rewrite (range_outside 49 57 32) by lia. cbn [mbind option_bind].
    unfold space. rewrite N.eqb_refl, range_inside by lia. cbv beta iota.
    replace (10 * 0 + (c - 48)) with (c - 48) by lia. by rewrite Hk.
  - rewrite (range_outside 51 51 48), (range_outside 49 50 48),
      (range_inside 48 48 48), (range_inside 49 57 c) by lia.
    replace (10 * (48 - 48) + (c - 48)) with (c - 48) by lia.
    by rewrite Hk.
  - rewrite (range_outside 51 51 a), (range_inside 49 50 a) by lia.
    unfold digit. by rewrite Hb, Hk.
  - rewrite (range_inside 51 51 51), (range_inside 48 49 c) by lia.
    replace (10 * (51 - 48) + (c - 48)) with (30 + (c - 48)) by lia.
    by rewrite Hk.
Qed.

Lemma match_format_accepted (s : pystr) (y m d : N) :
  match_format s = Some (y, m, d, []) ->
  exists yt mt dt,
    s = yt ++ [45] ++ mt ++ [45] ++ dt
    /\ year_text yt y /\ month_text mt m /\ day_text dt d.
Proof.
  unfold match_format.
  intros (a1 & y' & s1 & Hy & Ha1 & H)%directive_Some.
  destruct (literal 45 s1) as [s2|] eqn:L1; [|done]. cbn in H.
  apply directive_Some in H as (a2 & m' & s3 & Hm & Ha2 & H).
  destruct (literal 45 s3) as [s4|] eqn:L2; [|done]. cbn in H.
  apply directive_Some in H as (a3 & d' & s5 & Hd & Ha3 & H).
  injection H as -> -> -> ->.
  apply literal_Some in L1 as ->. apply literal_Some in L2 as ->.
  destruct (year_alt _ _ _ _ Hy Ha1) as (yt & -> & ?).
  destruct (month_alt _ _ _ _ Hm Ha2) as (mt & -> & ?).
  destruct (day_alt _ _ _ _ Hd Ha3) as (dt & -> & ?).
  exists yt, mt, dt. by rewrite app_nil_r.
Qed.

Lemma accepted_match_format (yt mt dt : pystr) (y m d : N) :
  year_text yt y -> month_text mt m -> day_text dt d ->
  match_format (yt ++ [45] ++ mt ++ [45] ++ dt) = Some (y, m, d, []).
Proof.
  intros Hy Hm Hd. unfold match_format.
  rewrite (year_complete yt _ y) by done. cbn [app literal].
  rewrite N.eqb_refl. cbn [mbind option_bind].
  apply (month_complete mt _ m); [done|]. cbn [literal]. rewrite N.eqb_refl.
  cbn [mbind option_bind]. by apply day_complete with d.
Qed.

End ValidDates.

Lemma ascii_digit_table (c : N) :
  48 <= c <= 57 -> ascii_digit c = Some (c - 48).
Proof.
  intros [H1 H2]. unfold ascii_digit.
  apply N.leb_le in H1, H2. by rewrite H1, H2.
Qed.

Ltac evaluate_date table :=
  unfold is_valid_date, strptime, match_format, year_directive,
    month_directive, day_directive, directive, four, two, one, literal,
    range, space, digit;
  lazymatch goal with
  | |- context [ utf8 ?lit ] =>
      let v := eval vm_compute in (utf8 lit) in change (utf8 lit) with v
  end;
  repeat (cbn; rewrite ?table by lia);
  reflexivity.

(** X22: [is_valid_date] answers true exactly for the strings made of a
    year, a hyphen, a month, a hyphen and a day, where the year is four
    characters of the class [\d] (the runtime's table of decimal digits,
    which has the ASCII digits) with a value from 1 to 9999; the month is
    written in ASCII digits as [1] to [9], [01] to [09] or [10] to [12];
    and the day is written as [1] to [9] in ASCII, the same after [0] or
    after a space, [1] or [2] followed by a character of [\d], [30] or
    [31], and is a day that the month of that year has.  It answers false
    for every other string, and no exception escapes.  So ["2024-02-29"]
    is valid, ["2023-02-29"] and ["2024-13-01"] are not, and ["2024-1-1"]
    is valid. *)
Theorem is_valid_date_accepts `{RT : Runtime} :
  (forall c, 48 <= c <= 57 -> decimal_digit c = Some (c - 48)) ->
  (forall s, is_valid_date s = Return true <-> accepted_date s)
  /\ (forall s, is_valid_date s = Return true \/ is_valid_date s = Return false)
  /\ is_valid_date (utf8 "2024-02-29") = Return true
  /\ is_valid_date (utf8 "2023-02-29") = Return false
  /\ is_valid_date (utf8 "2024-13-01") = Return false
  /\ is_valid_date (utf8 "2024-1-1") = Return true.
Proof.
  intros table. split; [|split].
  - intros s. unfold is_valid_date, strptime. split.
    + destruct (match_format s) as [[[[y m] d] rest]|] eqn:Hm; [|done].
      destruct (bool_decide (rest = [])) eqn:Hr; [|done].
      apply bool_decide_eq_true in Hr as ->.
      destruct (check_date_fields y m d) eqn:Hc; [|done]. intros _.
      apply match_format_accepted in Hm as (yt & mt & dt & -> & ? & ? & ?).
      exists yt, mt, dt, y, m, d. unfold check_date_fields in Hc.
      rewrite !andb_true_iff, !N.leb_le in Hc.
      split_and!; first [done | lia].
    + intros (yt & mt & dt & y & m & d & -> & Hy & Hm & Hd & Hyr & Hday).
      rewrite (accepted_match_format yt mt dt y m d) by done.
      rewrite bool_decide_eq_true_2 by done.
      assert (check_date_fields y m d = true) as ->; [|done].
      unfold check_date_fields.
      pose proof (month_text_bounds _ _ Hm).
      pose proof (day_text_positive _ _ Hd).
      rewrite !andb_true_iff, !N.leb_le. lia.
  - intros s. unfold is_valid_date, strptime.
    destruct (match_format s) as [[[[y m] d] rest]|]; [|by right].
    destruct (bool_decide (rest = [])); [|by right].
    destruct (check_date_fields y m d); [by left|by right].
  - repeat split; evaluate_date table.
Qed.

Lemma is_valid_date_accepts_witness :
  (forall c, 48 <= c <= 57 -> ascii_digit c = Some (c - 48))
  /\ (forall s, is_valid_date s = Return true <-> accepted_date s)
  /\ (forall s, is_valid_date s = Return true \/ is_valid_date s = Return false)
  /\ is_valid_date (utf8 "2024-02-29") = Return true
  /\ is_valid_date (utf8 "2023-02-29") = Return false
  /\ is_valid_date (utf8 "2024-13-01") = Return false
  /\ is_valid_date (utf8 "2024-1-1") = Return true.
Proof.
  split; [exact ascii_digit_table|].
  exact (@is_valid_date_accepts decimal_runtime ascii_digit_table).
Defined.

(** C2, on the code: ["2024-1-1"] and ["2024-1- 5"] have not the shape
    [YYYY-MM-DD] with a month and a day of two digits, which the
    docstring of [is_valid_date] and the prompts of [main] name as the
    format, and [is_valid_date] answers true for both. *)
Theorem unpadded_date_is_valid :
  iso_date (utf8 "2024-1-1") = false
  /\ is_valid_date (utf8 "2024-1-1") = Return true
  /\ iso_date (utf8 "2024-1- 5") = false
  /\ is_valid_date (utf8 "2024-1- 5") = Return true.
Proof. repeat split; reflexivity. Qed.

(** * Further properties of the tracker *)

(** ** The file follows the list *)

Section InStep.
Context {RT : Runtime}.

Lemma search_records_state (q : pystr) (w : world) :
  exists out, search_records q w
              = (Return tt, World (records w) (file w) (console w ++ out)).
Proof. eexists. apply search_loop_hits. Qed.

Lemma show_balance_state (w : world) :
  exists out, show_balance w
              = (Return tt, World (records w) (file w) (console w ++ out)).
Proof.
  eexists. unfold show_balance, bind, print. cbn [records file console].
  by rewrite <- !app_assoc.
Qed.

(** What a call does to the list and the file: it ends normally, and
    either it leaves both as they are or it has written the list it
    leaves to the file. *)
Lemma call_state (c : command) (w : world) :
  exists w',
    call c w = (Return tt, w')
    /\ ((records w' = records w /\ file w' = file w) \/ in_step w').
Proof.
  destruct c as [d c a e|i d c a e|i|q|]; cbn [call].
  - eexists. split; [reflexivity|]. by right.
  - unfold edit_record. destruct (out_of_range i (records w)).
    + eexists. split; [reflexivity|]. by left.
    + eexists. split; [reflexivity|]. by right.
  - unfold delete_record. destruct (out_of_range i (records w)).
    + eexists. split; [reflexivity|]. by left.
    + eexists. split; [reflexivity|]. by right.
  - destruct (search_records_state q w) as [out ->].
    eexists. split; [reflexivity|]. by left.
  - destruct (show_balance_state w) as [out ->].
    eexists. split; [reflexivity|]. by left.
Qed.

Lemma call_in_step (c : command) (w : world) :
  in_step w -> in_step (call c w).2.
Proof.
  intros H. destruct (call_state c w) as (w' & -> & [[Hr Hf]|Hs]); [|done].
  unfold in_step in *. cbn. by rewrite Hr, Hf.
Qed.

Lemma session_cons (c : command) (cs : list command) (w : world) :
  session (c :: cs) w = session cs (call c w).2.
Proof.
  cbn [session]. unfold bind.
  by destruct (call_state c w) as (w' & -> & _).
Qed.

End InStep.

(** X2: every method that changes the list writes the file afterwards,
    and the others leave both alone: when a run of calls of
    [add_record], [edit_record], [delete_record], [search_records] and
    [show_balance] ends normally and the file held the serialized list
    before it, the file holds the serialized list after it; and after a
    run with at least one [add_record] that ends normally it does so
    whatever the file held before. *)
Theorem session_in_step `{RT : Runtime} (cs : list command) (w w' : world) :
  session cs w = (Return tt, w') ->
  (in_step w -> in_step w')
  /\ ((exists d c a e, Add d c a e ∈ cs) -> in_step w').
Proof.
  revert w. induction cs as [|c cs IH]; intros w Hrun.
  - injection Hrun as <-. split; [done|].
    by intros (? & ? & ? & ? & ?%elem_of_nil).
  - rewrite session_cons in Hrun. destruct (IH _ Hrun) as [Hkeep Hadd].
    split.
    + intros H. by apply Hkeep, call_in_step.
    + intros (d & k & a & e & [Heq|Hin]%elem_of_cons).
      * subst c. by apply Hkeep.
      * apply Hadd. by exists d, k, a, e.
Qed.

Lemma session_in_step_witness :
  let w := World sample_ledger None [] in
  (in_step w -> in_step (session sample_session w).2)
  /\ ((exists d c a e, Add d c a e ∈ sample_session)
      -> in_step (session sample_session w).2).
Proof.
  apply (@session_in_step decimal_runtime sample_session
           (World sample_ledger None [])).
  destruct (session sample_session (World sample_ledger None []))
    as [[[]|e] w'] eqn:E; [reflexivity|exfalso].
  apply (f_equal (fun p => match p.1 with Return _ => true | Raise _ => false end))
    in E.
  vm_compute in E. discriminate.
Defined.

(** ** Restarting *)

Lemma call_well_formed `{RT : Runtime} (c : command) (w : world) :
  Forall well_formed (records w) ->
  (forall r, stored c = Some r -> well_formed r) ->
  Forall well_formed (records (call c w).2).
Proof.
  intros Hw Hc.
  destruct c as [d c a e|i d c a e|i|q|]; cbn [call].
  - cbn. apply Forall_app. split; [done|]. apply Forall_singleton. by apply Hc.
  - unfold edit_record. destruct (out_of_range i (records w)); cbn; [done|].
    apply Forall_insert; [done|]. by apply Hc.
  - unfold delete_record. destruct (out_of_range i (records w)); cbn; [done|].
    by apply Forall_delete.
  - by destruct (search_records_state q w) as [out ->].
  - by destruct (show_balance_state w) as [out ->].
Qed.

(** X3: what a run of calls leaves in memory is what the next start of
    the program loads, when the file was in step before the run and the
    records before it and the records the calls store are well formed: a
    date of the shape [YYYY-MM-DD], one of the two categories, an amount
    that prints back, and a description that ends with a character that
    is not white space (so it is not empty) and has no line break and no
    [": "]. *)
Theorem restart_after_session `{RT : Runtime} (cs : list command)
    (w : world) (out : list pystr) :
  in_step w ->
  Forall well_formed (records w) ->
  Forall (fun c => forall r, stored c = Some r -> well_formed r) cs ->
  init (World [] (file (session cs w).2) out)
  = (Return tt,
     World (records (session cs w).2) (file (session cs w).2) out).
Proof.
  revert w. induction cs as [|c cs IH]; intros w Hs Hw Hcs.
  - cbn. rewrite Hs. apply init_serialized.
    induction Hw; constructor; auto using well_formed_storable.
  - rewrite session_cons. apply Forall_cons in Hcs as [Hc Hcs].
    apply IH; [by apply call_in_step|by apply call_well_formed|done].
Qed.

Lemma restart_after_session_witness :
  let w := World sample_ledger (Some (serialize sample_ledger)) [] in
  init (World [] (file (session sample_session w).2) [])
  = (Return tt,
     World (records (session sample_session w).2)
           (file (session sample_session w).2) []).
Proof.
  apply (@restart_after_session decimal_runtime sample_session
           (World sample_ledger (Some (serialize sample_ledger)) []) []).
  - reflexivity.
  - unfold sample_ledger. well_formed_by_evaluation.
  - unfold sample_session.
    repeat (apply List.Forall_cons;
            [intros r Hr; first [discriminate Hr | injection Hr as <-];
             repeat (split; [field_by_evaluation|]); field_by_evaluation|]).
    apply List.Forall_nil.
Defined.

(** ** Lines that carry no label *)

Section Lines.
Context {RT : Runtime}.

Lemma load_line_unlabelled (l : pystr) (cur : option record) (w : world) :
  labelled l = false -> load_line l cur w = (Return cur, w).
Proof.
  unfold labelled, load_line. intros H.
  apply orb_false_iff in H as [H H4]. apply orb_false_iff in H as [H H3].
  apply orb_false_iff in H as [H1 H2]. by rewrite H1, H2, H3, H4.
Qed.

(** The loop reads neither the file field nor the console: on two states
    with the same records it ends the same way with the same records. *)
Lemma load_line_frame (l : pystr) (cur : option record) (rs : list record)
    (f f' : option pystr) (o o' : list pystr) :
  load_line l cur (World rs f o)
  = ((load_line l cur (World rs f' o')).1,
     World (records (load_line l cur (World rs f' o')).2) f o).
Proof.
  unfold load_line, bind, item, float, target, append_if_any, append, ret,
    raise.
  repeat case_match; simplify_eq; done.
Qed.

Lemma load_loop_frame (ls : list pystr) (cur : option record)
    (rs : list record) (f f' : option pystr) (o o' : list pystr) :
  load_loop ls cur (World rs f o)
  = ((load_loop ls cur (World rs f' o')).1,
     World (records (load_loop ls cur (World rs f' o')).2) f o).
Proof.
  revert cur rs. induction ls as [|l ls IH]; intros cur rs; [done|].
  rewrite !load_loop_cons, (load_line_frame l cur rs f f' o o').
  destruct (load_line l cur (World rs f' o')) as [[c|e] [rs1 f1 o1]] eqn:E;
    cbn [fst snd records]; [|done].
  pose proof (load_line_frame l cur rs f' f' o' o') as F.
  rewrite E in F. injection F as <- <-. apply IH.
Qed.

End Lines.

(** X4: a line that starts with none of the four labels, a blank line
    for one, is skipped by [load_data]: with or without it the load ends
    the same way and leaves the same records. *)
Theorem unlabelled_line_is_skipped `{RT : Runtime} (text text' : pystr)
    (pre post : list pystr) (l : pystr) (old : list record)
    (out : list pystr) :
  labelled l = false ->
  file_lines text = pre ++ l :: post ->
  file_lines text' = pre ++ post ->
  (load_data (World old (Some text) out)).1
  = (load_data (World old (Some text') out)).1
  /\ records (load_data (World old (Some text) out)).2
     = records (load_data (World old (Some text') out)).2.
Proof.
  intros Hl Ht Ht'. unfold load_data. cbn [file]. rewrite Ht, Ht'.
  unfold bind.
  rewrite (load_loop_frame _ None old (Some text) (Some text') out out).
  rewrite !load_loop_app.
  destruct (load_loop pre None _) as [[c|e] w1]; [|done].
  rewrite load_loop_cons, load_line_unlabelled by done.
  destruct (load_loop post c w1) as [[c'|e] w2]; [|done].
  by destruct c'.
Qed.

Lemma unlabelled_line_is_skipped_witness :
  let text := utf8 "Дата: 2024-01-01" ++ NL ++ utf8 "# note" ++ NL
              ++ utf8 "Сумма: 5.0" ++ NL in
  let text' := utf8 "Дата: 2024-01-01" ++ NL ++ utf8 "Сумма: 5.0" ++ NL in
  (load_data (World [] (Some text) [])).1
  = (load_data (World [] (Some text') [])).1
  /\ records (load_data (World [] (Some text) [])).2
     = records (load_data (World [] (Some text') [])).2.
Proof.
  apply (@unlabelled_line_is_skipped decimal_runtime _ _
           [utf8 "Дата: 2024-01-01" ++ NL] [utf8 "Сумма: 5.0" ++ NL]
           (utf8 "# note" ++ NL) [] []); reflexivity.
Defined.

(** ** One record for each date line *)

Section Counting.
Context {RT : Runtime}.

Lemma load_line_count (l : pystr) (cur c' : option record) (w w' : world) :
  load_line l cur w = (Return c', w') ->
  (length (records w') + length (option_list c')
   = length (records w) + length (option_list cur)
     + (if date_line l then 1 else 0))%nat.
Proof.
  unfold date_line, load_line, bind, item, float, target, append_if_any,
    append, ret, raise.
  intros H. repeat case_match; simplify_eq; cbn; rewrite ?length_app; cbn; lia.
Qed.

Lemma load_loop_count (ls : list pystr) (cur c' : option record)
    (w w' : world) :
  load_loop ls cur w = (Return c', w') ->
  (length (records w') + length (option_list c')
   = length (records w) + length (option_list cur) + date_lines ls)%nat.
Proof.
  revert cur w. induction ls as [|l ls IH]; intros cur w H.
  - injection H as -> ->. unfold date_lines. cbn. lia.
  - rewrite load_loop_cons in H.
    destruct (load_line l cur w) as [[c1|e] w1] eqn:E; [|done].
    apply load_line_count in E. apply IH in H.
    unfold date_lines in *. cbn [List.filter].
    destruct (date_line l); cbn [length]; lia.
Qed.

End Counting.

(** X5: when [load_data] ends normally it has appended exactly one record
    for each line that starts with the date label, the last block
    included although no date line follows it. *)
Theorem one_record_per_date_line `{RT : Runtime} (w w' : world)
    (text : pystr) :
  file w = Some text ->
  load_data w = (Return tt, w') ->
  length (records w')
  = (length (records w) + date_lines (file_lines text))%nat.
Proof.
  intros Hf H. unfold load_data in H. rewrite Hf in H. unfold bind in H.
  destruct (load_loop (file_lines text) None w) as [[c|e] w1] eqn:E; [|done].
  apply load_loop_count in E.
  destruct c as [r|]; unfold append_if_any, append, ret in H;
    injection H as <-; cbn in *; rewrite ?length_app; cbn; lia.
Qed.

Lemma one_record_per_date_line_witness :
  length (records (load_data (World [] (Some two_dates_file) [])).2)
  = (length (records (World [] (Some two_dates_file) []))
     + date_lines (file_lines two_dates_file))%nat.
Proof.
  apply (@one_record_per_date_line decimal_runtime
           (World [] (Some two_dates_file) []) _ two_dates_file);
    reflexivity.
Defined.

(** ** The order of the fields of a block *)

Section FieldOrder.
Context {RT : Runtime}.

Lemma set_commute (r : record) (c d : pystr) (a : number) :
  set_amount a (set_category c r) = set_category c (set_amount a r)
  /\ set_description d (set_category c r)
     = set_category c (set_description d r)
  /\ set_description d (set_amount a r) = set_amount a (set_description d r).
Proof. by destruct r. Qed.

Lemma swap_fields (l1 l2 : pystr) (cur c1 c2 : option record)
    (w w1 w2 : world) :
  kind l1 <> DateLine -> kind l2 <> DateLine -> kind l1 <> kind l2 ->
  load_line l1 cur w = (Return c1, w1) ->
  load_line l2 c1 w1 = (Return c2, w2) ->
  exists c1',
    load_line l2 cur w = (Return c1', w)
    /\ load_line l1 c1' w = (Return c2, w2).
Proof.
  unfold kind, load_line.
  destruct (startswith (strip l1) DATE_PREFIX); [done|].
  destruct (startswith (strip l2) DATE_PREFIX); [done|].
  unfold bind, item, float, target, ret, raise.
  intros _ _ Hk H1 H2.
  destruct (startswith (strip l1) CATEGORY_PREFIX);
    [|destruct (startswith (strip l1) AMOUNT_PREFIX);
      [|destruct (startswith (strip l1) DESCRIPTION_PREFIX)]];
    (destruct (startswith (strip l2) CATEGORY_PREFIX);
     [|destruct (startswith (strip l2) AMOUNT_PREFIX);
       [|destruct (startswith (strip l2) DESCRIPTION_PREFIX)]]);
    try done;
    repeat case_match; simplify_eq;
    (eexists; split; [reflexivity|]);
    repeat case_match; simplify_eq;
    try match goal with r : record |- _ => by destruct r end; done.
Qed.

(** [load_data] in terms of the lines of the file: the loop is run on a
    state with the same records, and the file and the console stay. *)
Lemma load_data_lines (old : list record) (text : pystr) (out : list pystr) :
  load_data (World old (Some text) out)
  = match load_loop (file_lines text) None (World old None []) with
    | (Return c, w1) =>
        (Return tt, World (records w1 ++ option_list c) (Some text) out)
    | (Raise e, w1) => (Raise e, World (records w1) (Some text) out)
    end.
Proof.
  unfold load_data, bind. cbn [file].
  rewrite (load_loop_frame _ None old (Some text) None out []).
  destruct (load_loop (file_lines text) None (World old None []))
    as [[c|e] w1]; cbn [fst snd]; [|done].
  destruct c; cbn; [done|]. by rewrite app_nil_r.
Qed.

End FieldOrder.

(** X6: within a block the lines of two different fields may stand in
    either order: when the load of a file ends normally, the load of the
    file with two neighbouring lines of different fields, neither of them
    a date line, exchanged ends normally with the same records. *)
Theorem fields_in_either_order `{RT : Runtime} (text text' : pystr)
    (pre post : list pystr) (l1 l2 : pystr) (old rs : list record)
    (out : list pystr) :
  kind l1 <> DateLine -> kind l2 <> DateLine -> kind l1 <> kind l2 ->
  file_lines text = pre ++ l1 :: l2 :: post ->
  file_lines text' = pre ++ l2 :: l1 :: post ->
  load_data (World old (Some text) out)
  = (Return tt, World rs (Some text) out) ->
  load_data (World old (Some text') out)
  = (Return tt, World rs (Some text') out).
Proof.
  intros K1 K2 K12 Ht Ht'. rewrite !load_data_lines, Ht, Ht'.
  rewrite !load_loop_app.
  destruct (load_loop pre None _) as [[c0|e] w0]; [|done].
  rewrite (load_loop_cons l1).
  destruct (load_line l1 c0 w0) as [[c1|e] w1] eqn:E1; [|done].
  rewrite (load_loop_cons l2 post).
  destruct (load_line l2 c1 w1) as [[c2|e] w2] eqn:E2; [|done].
  destruct (swap_fields l1 l2 c0 c1 c2 w0 w1 w2 K1 K2 K12 E1 E2)
    as (c1' & E3 & E4).
  rewrite (load_loop_cons l2), E3, (load_loop_cons l1), E4.
  destruct (load_loop post c2 w2) as [[c|e] w3]; [|done].
  by intros [= <-].
Qed.

Lemma fields_in_either_order_witness :
  let text := utf8 "Дата: 2024-01-01" ++ NL ++ utf8 "Описание: x" ++ NL
              ++ utf8 "Категория: Доход" ++ NL in
  let text' := utf8 "Дата: 2024-01-01" ++ NL ++ utf8 "Категория: Доход" ++ NL
               ++ utf8 "Описание: x" ++ NL in
  load_data (World [] (Some text') [])
  = (Return tt,
     World [Rec (utf8 "2024-01-01") INCOME IntZero (utf8 "x")]
           (Some text') []).
Proof.
  apply (@fields_in_either_order decimal_runtime
           (utf8 "Дата: 2024-01-01" ++ NL ++ utf8 "Описание: x" ++ NL
            ++ utf8 "Категория: Доход" ++ NL) _
           [utf8 "Дата: 2024-01-01" ++ NL] []
           (utf8 "Описание: x" ++ NL) (utf8 "Категория: Доход" ++ NL) []);
    first [reflexivity | intros H; vm_compute in H; discriminate].
Defined.

(** ** Loading twice *)

(** X7: [load_data] appends to the records that are there and clears
    nothing: called on a tracker whose file is in step with its
    well-formed records it leaves every record twice in the list. *)
Theorem load_data_appends `{RT : Runtime} (w : world) :
  in_step w ->
  Forall well_formed (records w) ->
  load_data w
  = (Return tt, World (records w ++ records w) (file w) (console w)).
Proof.
  intros Hs Hw. unfold load_data. rewrite Hs.
  assert (Forall storable (records w)) as Hst
    by (induction Hw; constructor; auto using well_formed_storable).
  rewrite file_lines_serialize, load_loop_blocks by done.
  by rewrite <- Hs.
Qed.

Lemma load_data_appends_witness :
  load_data (World sample_ledger (Some (serialize sample_ledger)) [])
  = (Return tt,
     World (sample_ledger ++ sample_ledger)
           (Some (serialize sample_ledger)) []).
Proof.
  apply (@load_data_appends decimal_runtime
           (World sample_ledger (Some (serialize sample_ledger)) []));
    [reflexivity|].
  unfold sample_ledger. well_formed_by_evaluation.
Defined.

(** ** Finding a record by its own fields *)

Section Finding.
Context {RT : Runtime}.

Lemma contains_self (s : pystr) : contains s s = true.
Proof. apply contains_factor. exists [], []. by rewrite app_nil_r. Qed.

End Finding.

(** X8: the record at position [i] is found by its whole date, by its
    whole category and by the string form of its amount.  What the
    search prints is one line for each record it finds, in index order
    and with no record twice, and the line of a record is its index, a
    colon and its four fields after their labels, as in
    ["1: Дата: 2024-01-02, Категория: Расход, Сумма: 40.0, Описание: food"];
    the line of the record at [i] is among them. *)
Theorem found_by_own_fields `{RT : Runtime} (w : world) (i : nat)
    (r : record) (q : pystr) :
  records w !! i = Some r ->
  q = date r \/ q = category r \/ q = str_of_number (amount r) ->
  exists hits : list (nat * record),
    console (search_records q w).2
    = console w
      ++ map (fun p => str_of_nat p.1
                       ++ utf8 ": Дата: " ++ date p.2
                       ++ utf8 ", Категория: " ++ category p.2
                       ++ utf8 ", Сумма: " ++ str_of_number (amount p.2)
                       ++ utf8 ", Описание: " ++ description p.2) hits
    /\ (i, r) ∈ hits
    /\ StronglySorted (fun p p' : nat * record => (p.1 < p'.1)%nat) hits
    /\ (forall j x, (j, x) ∈ hits -> records w !! j = Some x).
Proof.
  intros Hi Hq. unfold search_records. rewrite search_loop_hits.
  exists (search_hits q 0 (records w)). split; [reflexivity|]. split; [|split].
  - apply elem_of_search_hits. exists i. split; [done|]. split; [done|].
    unfold matches.
    destruct Hq as [->|[->| <-]];
      rewrite ?contains_self, ?orb_true_r; try done.
    rewrite bool_decide_eq_true_2 by done. by rewrite orb_true_r.
  - apply search_hits_sorted.
  - by intros j x (k & -> & Hk & _)%elem_of_search_hits.
Qed.

Lemma found_by_own_fields_witness :
  exists hits : list (nat * record),
    console (search_records (utf8 "40.0") (World sample_ledger None [])).2
    = [] ++ map (fun p => str_of_nat p.1
                          ++ utf8 ": Дата: " ++ date p.2
                          ++ utf8 ", Категория: " ++ category p.2
                          ++ utf8 ", Сумма: " ++ str_of_number (amount p.2)
                          ++ utf8 ", Описание: " ++ description p.2) hits
    /\ (1%nat, Rec (utf8 "2024-01-02") EXPENSE (Float (Dec 40 0))
                   (utf8 "food")) ∈ hits
    /\ StronglySorted (fun p p' : nat * record => (p.1 < p'.1)%nat) hits
    /\ (forall j x, (j, x) ∈ hits -> sample_ledger !! j = Some x).
Proof.
  apply (@found_by_own_fields decimal_runtime
           (World sample_ledger None []) 1); [reflexivity|].
  right. right. reflexivity.
Defined.

(** The line of the example, as the search prints it. *)
Example search_prints :
  console (search_records (utf8 "40.0") (World sample_ledger None [])).2
  = [utf8 "1: Дата: 2024-01-02, Категория: Расход, Сумма: 40.0, Описание: food"].
Proof. reflexivity. Qed.

(** ** Records that are neither income nor expense *)

Section OtherCategories.
Context {RT : Runtime}.

Lemma total_without (c : pystr) (rs1 rs2 : list record) (r : record) :
  category r <> c -> total c (rs1 ++ r :: rs2) = total c (rs1 ++ rs2).
Proof.
  intros H. unfold total.
  by rewrite !filter_app, filter_cons_False.
Qed.

Lemma total_none (c : pystr) (rs : list record) :
  Forall (fun r => category r <> c) rs -> total c rs = IntZero.
Proof.
  intros H. unfold total.
  induction H as [|r rs Hr _ IH]; [done|].
  by rewrite filter_cons_False.
Qed.

End OtherCategories.

(** X9: a record whose category is neither of the two sentinels, such
    as a record loaded from a block without category line, counts for
    nothing in [show_balance]: with or without it the same three lines
    are printed; and for a ledger without income and expense records,
    the empty one for instance, the three numbers are the [int] [0]. *)
Theorem other_categories_do_not_count `{RT : Runtime}
    (rs1 rs2 : list record) (r : record) (f : option pystr)
    (o : list pystr) :
  category r <> INCOME -> category r <> EXPENSE ->
  show_balance (World (rs1 ++ r :: rs2) f o)
  = (Return tt,
     World (rs1 ++ r :: rs2) f
           (console (show_balance (World (rs1 ++ rs2) f o)).2))
  /\ (Forall (fun x => category x <> INCOME /\ category x <> EXPENSE)
             (rs1 ++ rs2) ->
      console (show_balance (World (rs1 ++ r :: rs2) f o)).2
      = o ++ [BALANCE_TEXT ++ [48]; INCOME_TEXT ++ [48];
              EXPENSE_TEXT ++ [48]]).
Proof.
  intros Hi He. unfold show_balance, bind, print.
  cbn [records file console snd]. rewrite !total_without by done.
  split; [done|]. intros H.
  rewrite !total_none; [by rewrite <- !app_assoc|..];
    (eapply List.Forall_impl; [|exact H]); by intros x [? ?].
Qed.

Lemma other_categories_do_not_count_witness :
  console (show_balance
             (World ([] ++ Rec (utf8 "2024-01-01") [] IntZero [] :: [])
                    None [])).2
  = [] ++ [BALANCE_TEXT ++ [48]; INCOME_TEXT ++ [48]; EXPENSE_TEXT ++ [48]].
Proof.
  apply (@other_categories_do_not_count decimal_runtime [] []
           (Rec (utf8 "2024-01-01") [] IntZero []) None []);
    first [constructor | intros H; vm_compute in H; discriminate].
Defined.

(** ** Adding and deleting again *)

(** X10: [add_record] followed by [delete_record] at the index the new
    record got gives back the list as it was, and the file holds it. *)
Theorem add_then_delete_restores `{RT : Runtime} (w : world)
    (d c : pystr) (a : number) (e : pystr) :
  (add_record d c a e ;; delete_record (Z.of_nat (length (records w)))) w
  = (Return tt,
     World (records w) (Some (serialize (records w))) (console w)).
Proof.
  assert (delete (length (records w)) (records w ++ [Rec d c a e])
          = records w) as Hdel.
  { induction (records w) as [|x l IH]; [done|]. simpl. f_equal. exact IH. }
  assert (out_of_range (Z.of_nat (length (records w)))
            (records w ++ [Rec d c a e]) = false) as Hin.
  { unfold out_of_range. rewrite length_app. cbn [length].
    apply orb_false_iff. split; [apply Z.ltb_ge|apply Z.leb_gt]; lia. }
  change ((add_record d c a e ;;
           delete_record (Z.of_nat (length (records w)))) w)
    with (delete_record (Z.of_nat (length (records w)))
            (World (records w ++ [Rec d c a e])
                   (Some (serialize (records w ++ [Rec d c a e])))
                   (console w))).
  unfold delete_record. cbn [records file console].
  by rewrite Hin, Nat2Z.id, Hdel.
Qed.

(** ** Dates that pass the check go through the file *)

Section SafeDates.
Context {RT : Runtime}.
Hypothesis digits_are_safe :
  forall c v, decimal_digit c = Some v -> isspace c = false /\ c <> 58.

Lemma not_space_safe (c : N) : isspace c = false -> c <> 58 -> safe c = true.
Proof.
  intros Hs Hc. unfold safe.
  destruct (N.eqb_spec c 10) as [->|_]; [done|].
  destruct (N.eqb_spec c 13) as [->|_]; [done|].
  by destruct (N.eqb_spec c 58).
Qed.

Lemma ascii_digit_safe (c : N) :
  45 <= c <= 57 -> isspace c = false /\ safe c = true.
Proof.
  intros H.
  assert (c = 45 \/ c = 46 \/ c = 47 \/ c = 48 \/ c = 49 \/ c = 50 \/ c = 51
          \/ c = 52 \/ c = 53 \/ c = 54 \/ c = 55 \/ c = 56 \/ c = 57) as Hd
    by lia.
  clear H. repeat destruct Hd as [->|Hd]; try subst c; done.
Qed.

Lemma table_digit_safe (c v : N) :
  decimal_digit c = Some v -> isspace c = false /\ safe c = true.
Proof.
  intros [Hs Hc]%digits_are_safe. split; [done|]. by apply not_space_safe.
Qed.

Lemma year_text_safe (t : pystr) (y : N) :
  year_text t y -> forallb safe t = true.
Proof.
  destruct 1 as [a b c d va vb vc vd Ha Hb Hc Hd]. cbn.
  apply table_digit_safe in Ha as [_ ->], Hb as [_ ->], Hc as [_ ->],
    Hd as [_ ->]. done.
Qed.

Lemma month_text_safe (t : pystr) (m : N) :
  month_text t m -> forallb safe t = true.
Proof.
  destruct 1 as [c Hc|c Hc|c Hc]; cbn;
    destruct (ascii_digit_safe c) as [_ ->]; done || lia.
Qed.

Lemma day_text_safe (t : pystr) (d : N) :
  day_text t d ->
  forallb safe t = true
  /\ exists c, list.last t = Some c /\ isspace c = false.
Proof.
  destruct 1 as [c Hc|c Hc|c Hc|a b vb Ha Hb|c Hc]; cbn.
  1,2,3,5: destruct (ascii_digit_safe c) as [Hs ->]; [lia|];
    split; [done|]; by exists c.
  destruct (ascii_digit_safe a) as [_ ->]; [lia|].
  destruct (table_digit_safe b vb Hb) as [Hs ->].
  split; [done|]. by exists b.
Qed.

Lemma safe_plain (s : pystr) (c : N) :
  forallb safe s = true -> list.last s = Some c -> isspace c = false ->
  plain s = true.
Proof.
  intros Hs Hl Hc. unfold plain. rewrite Hl, Hc. cbn.
  apply andb_true_iff. split.
  - unfold no_breaks. apply forallb_forall. intros x Hx.
    rewrite forallb_forall in Hs. apply Hs in Hx. unfold safe in Hx.
    by apply andb_true_iff in Hx as [-> _].
  - apply negb_true_iff, no_colon_no_sep, forallb_forall. intros x Hx.
    rewrite forallb_forall in Hs. apply Hs in Hx. unfold safe in Hx.
    by apply andb_true_iff in Hx as [_ ->].
Qed.

(** X11: a date for which [is_valid_date] answers true is a plain value:
    it has no line break, no separator and no white space at its end, so
    the line [save_data] writes for it gives it back unchanged.  The
    digits of the runtime's table are taken to be neither white space
    nor colons. *)
Theorem valid_date_is_plain (d : pystr) :
  is_valid_date d = Return true -> plain d = true.
Proof.
  unfold is_valid_date, strptime.
  destruct (match_format d) as [[[[y m] dd] rest]|] eqn:Hm; [|done].
  destruct (bool_decide (rest = [])) eqn:Hr; [|done].
  apply bool_decide_eq_true in Hr as ->.
  destruct (check_date_fields y m dd); [|done]. intros _.
  apply match_format_accepted in Hm as (yt & mt & dt & -> & Hy & Hmt & Hd).
  apply day_text_safe in Hd as [Hds (c & Hl & Hc)].
  apply (safe_plain _ c); [|by rewrite !last_app, Hl|done].
  rewrite !forallb_app, (year_text_safe _ _ Hy), (month_text_safe _ _ Hmt), Hds.
  done.
Qed.

End SafeDates.

Lemma valid_date_is_plain_witness :
  plain (utf8 "2024-1- 5") = true.
Proof.
  apply (@valid_date_is_plain decimal_runtime); [|reflexivity].
  intros c v H. unfold decimal_digit, decimal_runtime, ascii_digit in H.
  destruct (48 <=? c) eqn:H1; [|done]. destruct (c <=? 57) eqn:H2; [|done].
  apply N.leb_le in H1, H2.
  destruct (ascii_digit_safe c) as [Hs Hc]; [lia|]. split; [done|]. lia.
Defined.

(** ** A description of white space only *)

Lemma lstrip_blank_app (a b : pystr) :
  forallb isspace a = true -> lstrip (a ++ b) = lstrip b.
Proof.
  induction a as [|c a IH]; [done|]. cbn [forallb].
  intros [Hc Ha]%andb_true_iff. cbn [app lstrip]. rewrite Hc. by apply IH.
Qed.

Lemma rstrip_blank (s ws : pystr) :
  forallb isspace ws = true -> rstrip (s ++ ws) = rstrip s.
Proof.
  intros H. unfold rstrip. rewrite rev_app_distr, lstrip_blank_app; [done|].
  apply forallb_forall. intros x Hx%in_rev.
  rewrite forallb_forall in H. by apply H.
Qed.

(** A labelled line whose value is blank strips down to its label. *)
Lemma strip_blank_value (c z : N) (p v : pystr) :
  isspace c = false -> isspace z = false -> forallb isspace v = true ->
  strip ((c :: p ++ [z]) ++ [32] ++ v ++ NL) = c :: p ++ [z].
Proof.
  intros Hc Hz Hv. unfold strip. cbn [app]. rewrite lstrip_id by done.
  change (c :: (p ++ [z]) ++ 32 :: v ++ NL)
    with (((c :: p) ++ [z]) ++ ([32] ++ v ++ NL)).
  rewrite rstrip_blank, rstrip_id; [done..|].
  cbn [app forallb]. rewrite forallb_app, Hv. done.
Qed.

Section BlankValues.
Context {RT : Runtime}.

Lemma load_line_blank_description (v : pystr) (cur : option record)
    (w : world) :
  forallb isspace v = true ->
  load_line (DESCRIPTION_PREFIX ++ [32] ++ v ++ NL) cur w
  = (Raise IndexError, w).
Proof.
  intros Hv. unfold load_line.
  change DESCRIPTION_PREFIX
    with (1054 :: [1087; 1080; 1089; 1072; 1085; 1080; 1077] ++ [58]).
  by rewrite strip_blank_value.
Qed.

Lemma file_lines_block_any (r : record) (rest : pystr) :
  no_breaks (date r) = true -> no_breaks (category r) = true ->
  no_breaks (str_of_number (amount r)) = true ->
  no_breaks (description r) = true ->
  file_lines (block r ++ rest) = block_lines r ++ file_lines rest.
Proof.
  intros Hd Hc Ha He. unfold block, block_lines.
  rewrite <- !app_assoc.
  rewrite !file_lines_labelled by done.
  change (NL ++ rest) with ([] ++ NL ++ rest).
  by rewrite file_lines_line.
Qed.

Lemma file_lines_serialize_app (rs : list record) (rest : pystr) :
  Forall storable rs ->
  file_lines (serialize rs ++ rest)
  = concat (map block_lines rs) ++ file_lines rest.
Proof.
  induction 1 as [|r rs Hr _ IH]; [done|].
  unfold serialize in *. cbn [map concat].
  by rewrite <- !app_assoc, file_lines_block, IH.
Qed.

(** The loop over complete blocks and the date line of the next one. *)
Lemma load_loop_blocks_date (rs : list record) (d : pystr)
    (ls : list pystr) (cur : option record) (w : world) :
  Forall storable rs -> plain d = true ->
  load_loop (concat (map block_lines rs)
             ++ (DATE_PREFIX ++ [32] ++ d ++ NL) :: ls) cur w
  = load_loop ls (Some (Rec d [] IntZero []))
      (World (records w ++ option_list cur ++ rs) (file w) (console w)).
Proof.
  intros H Hd. revert cur w. induction H as [|r rs Hr _ IH]; intros cur w.
  - cbn [map concat]. rewrite app_nil_l.
    rewrite load_loop_cons, load_line_date by done.
    by rewrite app_nil_r.
  - cbn [map concat]. rewrite <- app_assoc, load_loop_block by done.
    rewrite IH. cbn [records file console option_list].
    by rewrite <- !app_assoc.
Qed.

End BlankValues.

(** The load of a file in which a block with a blank description
    follows well-formed blocks. *)
Lemma init_blank_description `{RT : Runtime} (rs rest old : list record)
    (r : record) (out : list pystr) :
  Forall well_formed rs ->
  plain (date r) = true ->
  category r = INCOME \/ category r = EXPENSE ->
  (exists x, amount r = Float x /\ prints_back x) ->
  blank (description r) = true ->
  init (World old (Some (serialize (rs ++ r :: rest))) out)
  = (Raise IndexError, World rs (Some (serialize (rs ++ r :: rest))) out).
Proof.
  intros Hrs Hd Hc (x & Hx & Hp) Hb.
  assert (Forall storable rs) as Hst
    by (induction Hrs; constructor; auto using well_formed_storable).
  assert (plain (category r) = true) as Hpc by (by destruct Hc as [-> | ->]).
  apply andb_true_iff in Hb as [Hb Hnb].
  unfold init, load_data, bind. cbn [file console].
  unfold serialize. rewrite map_app, concat_app. cbn [map concat].
  fold (serialize rs). fold (serialize rest).
  rewrite file_lines_serialize_app by done.
  rewrite file_lines_block_any;
    [|by apply plain_no_breaks|by apply plain_no_breaks
     |rewrite Hx; by apply plain_no_breaks, Hp|done].
  change (block_lines r ++ file_lines (serialize rest))
    with ((DATE_PREFIX ++ [32] ++ date r ++ NL)
          :: (CATEGORY_PREFIX ++ [32] ++ category r ++ NL)
          :: (AMOUNT_PREFIX ++ [32] ++ str_of_number (amount r) ++ NL)
          :: (DESCRIPTION_PREFIX ++ [32] ++ description r ++ NL)
          :: NL :: file_lines (serialize rest)).
  rewrite load_loop_blocks_date by done.
  cbn [records file console option_list].
  rewrite Hx. cbn [str_of_number].
  rewrite load_loop_cons, load_line_category by done.
  rewrite load_loop_cons, load_line_amount by done.
  rewrite load_loop_cons, load_line_blank_description by done.
  done.
Qed.

(** X12: a record whose description is empty or white space only is
    written by [save_data] without complaint, and the file cannot be
    loaded again: the next start raises [IndexError] at the description
    line of that record and has appended the records before it only. *)
Theorem blank_description_breaks_restart `{RT : Runtime}
    (rs rest : list record) (r : record) (out : list pystr) :
  Forall well_formed rs ->
  iso_date (date r) = true ->
  category r = INCOME \/ category r = EXPENSE ->
  (exists x, amount r = Float x /\ prints_back x) ->
  blank (description r) = true ->
  (save_data (World (rs ++ r :: rest) None out)).1 = Return tt
  /\ init (World [] (file (save_data (World (rs ++ r :: rest) None out)).2)
             out)
     = (Raise IndexError,
        World rs (Some (serialize (rs ++ r :: rest))) out).
Proof.
  intros Hrs Hd Hc Hx Hb. split; [done|].
  cbn [save_data snd file records].
  apply init_blank_description; [done| |done..].
  by apply iso_date_plain.
Qed.

Lemma blank_description_breaks_restart_witness :
  (save_data (World (sample_ledger ++ [blank_entry]) None [])).1 = Return tt
  /\ init (World []
             (file (save_data (World (sample_ledger ++ [blank_entry]) None [])).2)
             [])
     = (Raise IndexError,
        World sample_ledger (Some (serialize (sample_ledger ++ [blank_entry])))
          []).
Proof.
  apply (blank_description_breaks_restart sample_ledger [] blank_entry []).
  - unfold sample_ledger. well_formed_by_evaluation.
  - reflexivity.
  - by right.
  - eexists. split; [reflexivity|]. split; vm_compute; reflexivity.
  - reflexivity.
Defined.

(** ** A field line before the first date line *)

Section Headless.
Context {RT : Runtime}.

Lemma load_loop_unlabelled (ls : list pystr) (cur : option record)
    (w : world) :
  Forall (fun l => labelled l = false) ls ->
  load_loop ls cur w = (Return cur, w).
Proof.
  induction 1 as [|l ls Hl _ IH]; [done|].
  by rewrite load_loop_cons, load_line_unlabelled.
Qed.

Lemma load_line_headless (l : pystr) (w : world) :
  kind l = CategoryLine \/ kind l = AmountLine \/ kind l = DescriptionLine ->
  evaluates l = true ->
  load_line l None w = (Raise AttributeError, w).
Proof.
  unfold evaluates, line_value, kind, load_line, bind, item, float, target,
    ret, raise.
  intros Hk He.
  destruct (split SEP (strip l) !! 1%nat) as [v|]; [|done].
  destruct (startswith (strip l) DATE_PREFIX);
    [by destruct Hk as [?|[?|?]]|].
  destruct (startswith (strip l) CATEGORY_PREFIX); [done|].
  destruct (startswith (strip l) AMOUNT_PREFIX).
  { by destruct (float_of_str v). }
  destruct (startswith (strip l) DESCRIPTION_PREFIX);
    [done|by destruct Hk as [?|[?|?]]].
Qed.

End Headless.

(** X13: a category, amount or description line that stands before the
    first date line, its value being one the line's assignment can
    evaluate, makes [load_data] raise [AttributeError]: there is no
    record to assign to.  Nothing of the file is loaded, whatever follows
    that line. *)
Theorem field_before_date_fails `{RT : Runtime} (text : pystr)
    (pre post : list pystr) (l : pystr) (old : list record)
    (out : list pystr) :
  file_lines text = pre ++ l :: post ->
  Forall (fun x => labelled x = false) pre ->
  kind l = CategoryLine \/ kind l = AmountLine \/ kind l = DescriptionLine ->
  evaluates l = true ->
  load_data (World old (Some text) out)
  = (Raise AttributeError, World old (Some text) out).
Proof.
  intros Hl Hpre Hk He.
  rewrite load_data_lines, Hl, load_loop_app, load_loop_unlabelled by done.
  by rewrite load_loop_cons, load_line_headless.
Qed.

Lemma field_before_date_fails_witness :
  load_data (World sample_ledger (Some headless_file) [])
  = (Raise AttributeError, World sample_ledger (Some headless_file) []).
Proof.
  apply (field_before_date_fails headless_file [NL]
           [utf8 "Дата: 2024-01-01" ++ NL]
           (utf8 "Категория: Доход" ++ NL)).
  - reflexivity.
  - by repeat constructor.
  - by left.
  - reflexivity.
Defined.

(** * The menu of [main] *)

Section Running.
Context {RT : Runtime} {BI : Builtins RT}.

(** ** Rules for the pieces of [main] *)

Lemma keeps_bind {A B} (R : terminal -> terminal -> Prop) (m : IO A)
    (k : A -> IO B) (P : A -> Prop) (Q : B -> Prop) :
  Transitive R ->
  keeps R m P -> (forall a, P a -> keeps R (k a) Q) ->
  keeps R (io_bind m k) Q.
Proof.
  intros HR Hm Hk t e t' H. unfold io_bind in H.
  destruct (m t) as [[[a|x|] t1]|] eqn:E; [|injection H as <- <-..|done].
  - destruct (Hm _ _ _ E) as [H1 Ha].
    destruct (Hk a Ha _ _ _ H) as [H2 He]. split; [by etrans|done].
  - apply (Hm _ _ _ E).
  - apply (Hm _ _ _ E).
Qed.

Lemma keeps_ret {A} (R : terminal -> terminal -> Prop) (a : A)
    (P : A -> Prop) :
  Reflexive R -> P a -> keeps R (io_ret a) P.
Proof. intros HR Ha t e t' [= <- <-]. done. Qed.

Lemma keeps_weaken {A} (R R' : terminal -> terminal -> Prop) (m : IO A)
    (P P' : A -> Prop) :
  (forall t t', R t t' -> R' t t') -> (forall a, P a -> P' a) ->
  keeps R m P -> keeps R' m P'.
Proof.
  intros HR HP Hm t e t' H. destruct (Hm _ _ _ H) as [H1 H2].
  split; [by apply HR|]. destruct e; auto.
Qed.

Lemma keeps_while {V} (R : terminal -> terminal -> Prop) (fuel : nat)
    (cond : V -> IO bool) (body : V -> IO V) (G : V -> Prop) (v : V) :
  Reflexive R -> Transitive R ->
  (forall v, keeps R (cond v) (fun c => c = false -> G v)) ->
  (forall v, keeps R (body v) (fun _ => True)) ->
  keeps R (while fuel cond body v) G.
Proof.
  intros Hr Ht Hc Hb. revert v. induction fuel as [|n IH]; intros v; [done|].
  cbn [while]. eapply keeps_bind; [done|apply Hc|]. intros [] Hv.
  - eapply keeps_bind; [done|apply Hb|]. intros v' _. apply IH.
  - apply keeps_ret; [done|]. by apply Hv.
Qed.

#[local] Instance quiet_refl : Reflexive quiet.
Proof. intros t. repeat split. by exists []. Qed.

#[local] Instance quiet_trans : Transitive quiet.
Proof.
  intros t1 t2 t3 (Hm1 & Hd1 & u1 & Hu1) (Hm2 & Hd2 & u2 & Hu2).
  split; [congruence|]. split; [congruence|].
  exists (u1 ++ u2). by rewrite Hu1, Hu2, app_assoc.
Qed.

Lemma say_quiet (line : pystr) : keeps quiet (say line) (fun _ => True).
Proof. intros t e t' [= <- <-]. repeat split. by exists []. Qed.

Lemma say_all_quiet (lines : list pystr) :
  keeps quiet (say_all lines) (fun _ => True).
Proof.
  induction lines as [|l ls IH]; cbn [say_all].
  - by apply keeps_ret; [apply _|].
  - eapply keeps_bind; [apply _|apply say_quiet|done].
Qed.

Lemma input_quiet (prompt : pystr) : keeps quiet (input prompt) (fun _ => True).
Proof.
  intros t e t' H. unfold input in H.
  destruct (stdin t) as [|l rest] eqn:E; injection H as <- <-.
  - repeat split. exists []. by rewrite E.
  - repeat split. exists [l]. by rewrite E.
Qed.

Lemma strptime_raises (s : pystr) (e : exn) :
  strptime s = Raise e -> e = ValueError.
Proof.
  unfold strptime. repeat case_match; congruence.
Qed.

Lemma is_valid_date_returns (s : pystr) :
  exists b, is_valid_date s = Return b.
Proof.
  unfold is_valid_date. destruct (strptime s) as [v|e] eqn:E; [by eexists|].
  apply strptime_raises in E as ->. by eexists.
Qed.

Lemma pure_date_quiet (s : pystr) :
  keeps quiet (pure (is_valid_date s)) (fun b => is_valid_date s = Return b).
Proof.
  intros t e t' H. unfold pure in H.
  destruct (is_valid_date_returns s) as [b Hb]. rewrite Hb in H |- *.
  injection H as <- <-. done.
Qed.

Lemma py_int_quiet (s : pystr) : keeps quiet (py_int s) (fun _ => True).
Proof.
  intros t e t' H. unfold py_int, pure in H.
  destruct (int_of_str s); injection H as <- <-; done.
Qed.

Lemma py_float_quiet (s : pystr) : keeps quiet (py_float s) (fun _ => True).
Proof.
  intros t e t' H. unfold py_float, pure in H.
  destruct (float_of_str s); injection H as <- <-; done.
Qed.

Lemma ask_date_quiet (fuel : nat) (first : pystr) :
  keeps quiet (ask_date fuel first)
        (fun d => is_valid_date d = Return true).
Proof.
  unfold ask_date. eapply keeps_bind; [apply _|apply input_quiet|].
  intros d _. apply keeps_while; [apply _..| |intros; apply input_quiet].
  intros v. eapply keeps_bind; [apply _|apply pure_date_quiet|].
  intros b Hb. apply keeps_ret; [apply _|].
  intros H. apply bool_decide_eq_false in H. rewrite Hb. by destruct b.
Qed.

Lemma ask_category_quiet (fuel : nat) (first : pystr) :
  keeps quiet (ask_category fuel first)
        (fun c => c = INCOME \/ c = EXPENSE).
Proof.
  unfold ask_category. eapply keeps_bind; [apply _|apply input_quiet|].
  intros c _. apply keeps_while; [apply _..| |intros; apply input_quiet].
  intros v. apply keeps_ret; [apply _|].
  intros [H|H]%andb_false_iff; apply bool_decide_eq_false in H.
  - left. by destruct (decide (v = INCOME)).
  - right. by destruct (decide (v = EXPENSE)).
Qed.

Lemma read_float_quiet (prompt : pystr) :
  keeps quiet (io_bind (input prompt) py_float) (fun _ => True).
Proof.
  eapply keeps_bind; [apply _|apply input_quiet|]. intros. apply py_float_quiet.
Qed.

Lemma ask_amount_quiet (fuel : nat) (first : pystr) :
  keeps quiet (ask_amount fuel first) (fun x => float_negative x = false).
Proof.
  unfold ask_amount. eapply keeps_bind; [apply _|apply read_float_quiet|].
  intros x _.
  apply keeps_while; [apply _..| |intros; apply read_float_quiet].
  intros v. by apply keeps_ret; [apply _|].
Qed.

(** ** The calls the menu makes *)

(** What a call leaves in the list and in the file does not depend on
    what was printed before. *)
Lemma call_frame (c : command) (rs : list record) (f : option pystr)
    (o o' : list pystr) :
  records (call c (World rs f o)).2 = records (call c (World rs f o')).2
  /\ file (call c (World rs f o)).2 = file (call c (World rs f o')).2.
Proof.
  destruct c as [d c a e|i d c a e|i|q|]; cbn [call].
  - done.
  - unfold edit_record. cbn [records]. by destruct (out_of_range i rs).
  - unfold delete_record. cbn [records]. by destruct (out_of_range i rs).
  - destruct (search_records_state q (World rs f o)) as [out ->].
    by destruct (search_records_state q (World rs f o')) as [out' ->].
  - destruct (show_balance_state (World rs f o)) as [out ->].
    by destruct (show_balance_state (World rs f o')) as [out' ->].
Qed.

Lemma session_frame (cs : list command) (w w' : world) :
  records w = records w' -> file w = file w' ->
  records (session cs w).2 = records (session cs w').2
  /\ file (session cs w).2 = file (session cs w').2.
Proof.
  revert w w'. induction cs as [|c cs IH]; intros w w' Hr Hf; [done|].
  rewrite !session_cons. destruct w as [rs f o], w' as [rs' f' o'].
  cbn in Hr, Hf. subst rs' f'.
  destruct (call_frame c rs f o o') as [H1 H2]. by apply IH.
Qed.

Lemma session_app (cs1 cs2 : list command) (w : world) :
  session (cs1 ++ cs2) w = session cs2 (session cs1 w).2.
Proof.
  revert w. induction cs1 as [|c cs1 IH]; intros w; [done|].
  cbn [app]. by rewrite !session_cons.
Qed.

#[local] Instance called_refl : Reflexive called.
Proof. intros t. by exists [], []. Qed.

#[local] Instance called_trans : Transitive called.
Proof.
  intros t1 t2 t3 (u1 & cs1 & Hu1 & He1 & Hm1 & Hd1)
    (u2 & cs2 & Hu2 & He2 & Hm2 & Hd2).
  exists (u1 ++ u2), (cs1 ++ cs2).
  split; [by rewrite Hu1, Hu2, app_assoc|].
  split; [by apply Forall_app|].
  rewrite session_app.
  destruct (session_frame cs2 (tracker t2) (session cs1 (tracker t1)).2)
    as [H1 H2]; [done..|].
  by rewrite Hm2, Hd2, H1, H2.
Qed.

Lemma quiet_called (t t' : terminal) : quiet t t' -> called t t'.
Proof.
  intros (Hm & Hd & used & Hu). exists used, []. by repeat split.
Qed.

Lemma keeps_quiet_called {A} (m : IO A) (P : A -> Prop) :
  keeps quiet m P -> keeps called m P.
Proof. apply keeps_weaken; [apply quiet_called|done]. Qed.

Lemma method_called (c : command) :
  entered c -> keeps called (method (call c)) (fun _ => True).
Proof.
  intros Hc t e t' H. unfold method, pure in H.
  destruct (call_state c (World (memory t) (disk t) [])) as (w' & Hw & _).
  rewrite Hw in H. cbn [fst snd] in H. injection H as <- <-.
  split; [|done]. exists [], [c].
  split; [done|]. split; [by apply Forall_singleton|].
  rewrite session_cons. unfold tracker. by rewrite Hw.
Qed.

Lemma serve_called (fuel : nat) (choice : pystr) :
  keeps called (serve fuel choice) (fun b => b = false -> choice = [54]).
Proof.
  unfold serve. repeat case_bool_decide.
  - eapply keeps_bind;
      [apply _|apply keeps_quiet_called, ask_date_quiet|intros d Hd].
    eapply keeps_bind;
      [apply _|apply keeps_quiet_called, ask_category_quiet|intros c Hk].
    eapply keeps_bind;
      [apply _|apply keeps_quiet_called, ask_amount_quiet|intros x Hx].
    eapply keeps_bind;
      [apply _|apply keeps_quiet_called, input_quiet|intros e _].
    eapply keeps_bind;
      [apply _|apply (method_called (Add d c (Float x) e))|intros _ _].
    + intros r [= <-]. split; [done|]. split; [done|]. by exists x.
    + by apply keeps_ret; [apply _|].
  - eapply keeps_bind; [apply _| |intros i _].
    { apply keeps_quiet_called. eapply keeps_bind;
        [apply _|apply input_quiet|intros; apply py_int_quiet]. }
    eapply keeps_bind;
      [apply _|apply keeps_quiet_called, ask_date_quiet|intros d Hd].
    eapply keeps_bind;
      [apply _|apply keeps_quiet_called, ask_category_quiet|intros c Hk].
    eapply keeps_bind;
      [apply _|apply keeps_quiet_called, ask_amount_quiet|intros x Hx].
    eapply keeps_bind;
      [apply _|apply keeps_quiet_called, input_quiet|intros e _].
    eapply keeps_bind;
      [apply _|apply (method_called (Edit i d c (Float x) e))|intros _ _].
    + intros r [= <-]. split; [done|]. split; [done|]. by exists x.
    + by apply keeps_ret; [apply _|].
  - eapply keeps_bind; [apply _| |intros i _].
    { apply keeps_quiet_called. eapply keeps_bind;
        [apply _|apply input_quiet|intros; apply py_int_quiet]. }
    eapply keeps_bind;
      [apply _|apply (method_called (Delete i))|intros _ _].
    + by intros r.
    + by apply keeps_ret; [apply _|].
  - eapply keeps_bind;
      [apply _|apply keeps_quiet_called, input_quiet|intros q _].
    eapply keeps_bind;
      [apply _|apply (method_called (Search q))|intros _ _].
    + by intros r.
    + by apply keeps_ret; [apply _|].
  - eapply keeps_bind;
      [apply _|apply (method_called Balance)|intros _ _].
    + by intros r.
    + by apply keeps_ret; [apply _|].
  - by apply keeps_ret; [apply _|].
  - eapply keeps_bind;
      [apply _|apply keeps_quiet_called, say_quiet|intros _ _].
    by apply keeps_ret; [apply _|].
Qed.

Lemma turn_called (fuel : nat) : keeps called (turn fuel) (fun _ => True).
Proof.
  unfold turn.
  eapply keeps_bind;
    [apply _|apply keeps_quiet_called, say_all_quiet|intros _ _].
  eapply keeps_bind;
    [apply _|apply keeps_quiet_called, input_quiet|intros choice _].
  eapply keeps_weaken; [| |apply serve_called]; done.
Qed.

Lemma menu_called (fuel : nat) : keeps called (menu fuel) (fun _ => True).
Proof.
  induction fuel as [|n IH]; [done|]. cbn [menu].
  eapply keeps_bind; [apply _|apply turn_called|intros [] _]; [done|].
  by apply keeps_ret; [apply _|].
Qed.

Lemma call_checked (c : command) (w : world) :
  Forall checked (records w) -> entered c ->
  Forall checked (records (call c w).2).
Proof.
  intros Hw Hc.
  destruct c as [d c a e|i d c a e|i|q|]; cbn [call].
  - cbn. apply Forall_app. split; [done|]. apply Forall_singleton. by apply Hc.
  - unfold edit_record. destruct (out_of_range i (records w)); cbn; [done|].
    apply Forall_insert; [done|]. by apply Hc.
  - unfold delete_record. destruct (out_of_range i (records w)); cbn; [done|].
    by apply Forall_delete.
  - by destruct (search_records_state q w) as [out ->].
  - by destruct (show_balance_state w) as [out ->].
Qed.

Lemma session_checked (cs : list command) (w : world) :
  Forall checked (records w) -> Forall entered cs ->
  Forall checked (records (session cs w).2).
Proof.
  revert w. induction cs as [|c cs IH]; intros w Hw Hcs; [done|].
  rewrite session_cons. apply Forall_cons in Hcs as [Hc Hcs].
  apply IH; [by apply call_checked|done].
Qed.

Lemma session_keeps_step (cs : list command) (w : world) :
  in_step w -> in_step (session cs w).2.
Proof.
  revert w. induction cs as [|c cs IH]; intros w Hw; [done|].
  rewrite session_cons. by apply IH, call_in_step.
Qed.

Lemma session_returns (cs : list command) (w : world) :
  (session cs w).1 = Return tt.
Proof.
  revert w. induction cs as [|c cs IH]; intros w; [done|].
  rewrite session_cons. apply IH.
Qed.

Lemma say_all_eq (lines : list pystr) (t : terminal) :
  say_all lines t
  = Some (Ends tt,
          Terminal (memory t) (disk t) (stdin t)
                   (stdout t ++ (Line <$> lines))).
Proof.
  revert t. induction lines as [|l ls IH]; intros t.
  - cbn. rewrite app_nil_r. by destruct t.
  - cbn [say_all]. unfold io_bind, say. rewrite IH. cbn.
    by rewrite <- app_assoc.
Qed.

(** The loop is left at the choice ['6'] only, and nothing is read after
    it. *)
Lemma turn_break (fuel : nat) (t t' : terminal) :
  turn fuel t = Some (Ends false, t') -> stdin t = [54] :: stdin t'.
Proof.
  unfold turn, io_bind. rewrite say_all_eq. unfold input. cbn [stdin].
  destruct (stdin t) as [|choice rest]; [done|]. intros H.
  pose proof (serve_called _ _ _ _ _ H) as [_ Hc].
  rewrite (Hc eq_refl) in H |- *.
  unfold serve in H. repeat case_bool_decide; try done.
  by injection H as <-.
Qed.

End Running.

(** The sample input is answered to the end: the loop is left at the
    choice ['6']. *)
Lemma sample_run :
  menu 10 (typed_loaded sample_input) = Some (Ends tt, answered sample_input).
Proof.
  assert (ending_of sample_input = Ends tt) as He by (vm_compute; reflexivity).
  revert He. unfold ending_of, answered.
  change (length sample_input) with 10%nat.
  destruct (menu 10 (typed_loaded sample_input)) as [[e t']|]; [|done].
  by intros ->.
Qed.

(** X14: what the menu loop of [main] does to the tracker it does
    through [add_record], [edit_record], [delete_record],
    [search_records] and [show_balance]: the records and the file it
    leaves when it ends, normally, at the end of the input or with the
    [ValueError] of a conversion, are those a run of such calls leaves,
    and every record handed to [add_record] or [edit_record] in that run
    has a date that [is_valid_date] accepts, one of the two categories
    and an amount that is not below zero. *)
Theorem menu_makes_calls {RT : Runtime} {BI : Builtins RT} (fuel : nat)
    (t t' : terminal) (e : ending unit) :
  menu fuel t = Some (e, t') ->
  exists cs,
    Forall entered cs
    /\ memory t' = records (session cs (tracker t)).2
    /\ disk t' = file (session cs (tracker t)).2.
Proof.
  intros H.
  destruct (menu_called _ _ _ _ H) as [(used & cs & _ & Hcs & Hm & Hd) _].
  by exists cs.
Qed.

Lemma menu_makes_calls_witness :
  exists cs,
    Forall entered cs
    /\ memory (answered sample_input)
       = records (session cs (tracker (typed_loaded sample_input))).2
    /\ disk (answered sample_input)
       = file (session cs (tracker (typed_loaded sample_input))).2.
Proof.
  apply (menu_makes_calls 10 (typed_loaded sample_input)
           (answered sample_input) (Ends tt)).
  apply sample_run.
Defined.

(** X15: the menu loop keeps what its questions check and keeps the file
    in step: if every record in memory has a date that [is_valid_date]
    accepts, one of the two categories and a float amount that is not
    below zero, then so it is when the loop ends, be it normally, at the
    end of the input or with the [ValueError] of a conversion; and the
    file holds the serialized list then if it did before the loop. *)
Theorem menu_keeps_checked {RT : Runtime} {BI : Builtins RT} (fuel : nat)
    (t t' : terminal) (e : ending unit) :
  menu fuel t = Some (e, t') ->
  Forall checked (memory t) ->
  Forall checked (memory t')
  /\ (in_step (tracker t) -> in_step (tracker t')).
Proof.
  intros H Ht.
  destruct (menu_called _ _ _ _ H) as [(used & cs & _ & Hcs & Hm & Hd) _].
  split.
  - rewrite Hm. by apply session_checked.
  - intros Hs. unfold in_step, tracker. cbn [file records].
    rewrite Hd, Hm. by apply session_keeps_step.
Qed.

Lemma menu_keeps_checked_witness :
  Forall checked (memory (answered sample_input))
  /\ (in_step (tracker (typed_loaded sample_input))
      -> in_step (tracker (answered sample_input))).
Proof.
  apply (menu_keeps_checked 10 (typed_loaded sample_input)
           (answered sample_input) (Ends tt)).
  - apply sample_run.
  - repeat (apply List.Forall_cons;
            [split; [reflexivity|]; split;
             [first [by left|by right]|eexists; split; reflexivity]|]).
    apply List.Forall_nil.
Defined.

(** X16: the menu loop reads the standard input from the front.  It
    ends normally only after the choice ['6'], which is the last line it
    has read, and it ends with [EOFError] only when every line has been
    read. *)
Theorem menu_ends_at_six {RT : Runtime} {BI : Builtins RT} (fuel : nat)
    (t t' : terminal) (e : ending unit) :
  menu fuel t = Some (e, t') ->
  exists used,
    stdin t = used ++ stdin t'
    /\ (e = Ends tt -> list.last used = Some [54])
    /\ (e = EOFError -> stdin t' = []).
Proof.
  revert t. induction fuel as [|n IH]; intros t H; [done|].
  cbn [menu] in H. unfold io_bind in H.
  destruct (turn n t) as [[[[]|x|] t1]|] eqn:E; [| |injection H as <- <-..|done].
  - destruct (turn_called _ _ _ _ E) as [(u1 & cs & Hu1 & _) _].
    destruct (IH _ H) as (u2 & Hu2 & He & Hf).
    exists (u1 ++ u2). split; [by rewrite Hu1, Hu2, app_assoc|].
    split; [|done]. intros Hend. specialize (He Hend).
    destruct u2 as [|l u2]; [done|]. by rewrite last_app, He.
  - injection H as <- <-. exists [[54]]. split; [|done].
    by apply turn_break in E.
  - destruct (turn_called _ _ _ _ E) as [(u1 & cs & Hu1 & _) Hx].
    by exists u1.
  - destruct (turn_called _ _ _ _ E) as [(u1 & cs & Hu1 & _) Hx].
    by exists u1.
Qed.

Lemma menu_ends_at_six_witness :
  exists used,
    stdin (typed_loaded sample_input) = used ++ stdin (answered sample_input)
    /\ (Ends tt = Ends tt -> list.last used = Some [54])
    /\ (Ends tt = EOFError -> stdin (answered sample_input) = []).
Proof.
  apply (menu_ends_at_six 10 (typed_loaded sample_input)
           (answered sample_input) (Ends tt)).
  apply sample_run.
Defined.

(** ** The loops end *)

Section Ending.
Context {RT : Runtime} {BI : Builtins RT}.

Lemma reads_bind {A B} (s1 s2 : bool) (m : IO A) (k : A -> IO B)
    (t : terminal) :
  reads s1 m t ->
  (forall a t1,
     m t = Some (Ends a, t1) ->
     (length (stdin t1) <= length (stdin t))%nat ->
     (s1 = true -> (length (stdin t1) < length (stdin t))%nat) ->
     reads s2 (k a) t1) ->
  reads (s1 || s2) (io_bind m k) t.
Proof.
  intros (e & t1 & Hm & Hle & Hlt) Hk. unfold reads, io_bind. rewrite Hm.
  destruct e as [a|x|].
  - destruct (Hk a t1 Hm Hle (fun H => Hlt H a eq_refl))
      as (e2 & t2 & Hk2 & Hle2 & Hlt2).
    exists e2, t2. split; [done|]. split; [lia|].
    intros [Hs|Hs]%orb_true_iff b ->.
    + specialize (Hlt Hs a eq_refl). lia.
    + specialize (Hlt2 Hs b eq_refl). lia.
  - exists (Fails x), t1. by repeat split.
  - exists EOFError, t1. by repeat split.
Qed.

Lemma reads_weaken {A} (s : bool) (m : IO A) (t : terminal) :
  reads s m t -> reads false m t.
Proof. intros (e & t' & H & Hle & _). exists e, t'. by repeat split. Qed.

Lemma reads_then {A B} (s1 s2 : bool) (m : IO A) (k : A -> IO B)
    (t : terminal) :
  reads s1 m t ->
  (forall a t1,
     m t = Some (Ends a, t1) ->
     (length (stdin t1) <= length (stdin t))%nat ->
     (s1 = true -> (length (stdin t1) < length (stdin t))%nat) ->
     reads s2 (k a) t1) ->
  reads false (io_bind m k) t.
Proof. intros Hm Hk. by apply (reads_weaken (s1 || s2)), reads_bind. Qed.

Lemma reads_ret {A} (a : A) (t : terminal) : reads false (io_ret a) t.
Proof. exists (Ends a), t. by repeat split. Qed.

Lemma reads_pure {A} (o : outcome A) (t : terminal) : reads false (pure o) t.
Proof. eexists _, t. by repeat split. Qed.

Lemma reads_say (line : pystr) (t : terminal) : reads false (say line) t.
Proof. eexists _, _. by repeat split. Qed.

Lemma reads_say_all (lines : list pystr) (t : terminal) :
  reads false (say_all lines) t.
Proof. eexists _, _. rewrite say_all_eq. by repeat split. Qed.

Lemma reads_method {A} (m : M A) (t : terminal) : reads false (method m) t.
Proof. eexists _, _. by repeat split. Qed.

Lemma reads_input (prompt : pystr) (t : terminal) :
  reads true (input prompt) t.
Proof.
  unfold reads, input. destruct (stdin t) as [|l rest]; eexists _, _.
  - by repeat split.
  - split; [done|]. cbn. split; [lia|]. intros _ a _. lia.
Qed.

Lemma reads_int (prompt : pystr) (t : terminal) :
  reads true (io_bind (input prompt) py_int) t.
Proof.
  apply (reads_bind true false); [apply reads_input|].
  intros. apply reads_pure.
Qed.

Lemma reads_float (prompt : pystr) (t : terminal) :
  reads true (io_bind (input prompt) py_float) t.
Proof.
  apply (reads_bind true false); [apply reads_input|].
  intros. apply reads_pure.
Qed.

(** A loop whose body reads a line at each turn ends when it has more
    fuel than there are lines. *)
Lemma reads_while {V} (fuel : nat) (cond : V -> IO bool) (body : V -> IO V)
    (v : V) (t : terminal) :
  (forall v t, reads false (cond v) t) ->
  (forall v t, reads true (body v) t) ->
  (length (stdin t) < fuel)%nat ->
  reads false (while fuel cond body v) t.
Proof.
  intros Hc Hb. revert v t. induction fuel as [|n IH]; intros v t Hn; [lia|].
  cbn [while]. eapply reads_then; [apply Hc|].
  intros [] t1 _ Hle _; [|apply reads_ret].
  eapply reads_then; [apply Hb|].
  intros v' t2 _ _ Hlt. apply IH. specialize (Hlt eq_refl). lia.
Qed.

Lemma ask_date_reads (fuel : nat) (first : pystr) (t : terminal) :
  (length (stdin t) <= fuel)%nat -> reads true (ask_date fuel first) t.
Proof.
  intros Hn. unfold ask_date.
  apply (reads_bind true false); [apply reads_input|].
  intros d t1 _ _ Hlt. specialize (Hlt eq_refl).
  apply reads_while; [|intros; apply reads_input|lia].
  intros v t2. apply (reads_bind false false); [apply reads_pure|].
  intros. apply reads_ret.
Qed.

Lemma ask_category_reads (fuel : nat) (first : pystr) (t : terminal) :
  (length (stdin t) <= fuel)%nat -> reads true (ask_category fuel first) t.
Proof.
  intros Hn. unfold ask_category.
  apply (reads_bind true false); [apply reads_input|].
  intros d t1 _ _ Hlt. specialize (Hlt eq_refl).
  apply reads_while; [|intros; apply reads_input|lia].
  intros v t2. apply reads_ret.
Qed.

Lemma ask_amount_reads (fuel : nat) (first : pystr) (t : terminal) :
  (length (stdin t) <= fuel)%nat -> reads true (ask_amount fuel first) t.
Proof.
  intros Hn. unfold ask_amount.
  apply (reads_bind true false); [apply reads_float|].
  intros d t1 _ _ Hlt. specialize (Hlt eq_refl).
  apply reads_while; [|intros; apply reads_float|lia].
  intros v t2. apply reads_ret.
Qed.

Lemma serve_reads (fuel : nat) (choice : pystr) (t : terminal) :
  (length (stdin t) <= fuel)%nat -> reads false (serve fuel choice) t.
Proof.
  intros Hn. unfold serve. repeat case_bool_decide.
  - eapply reads_then; [by apply ask_date_reads|].
    intros d t1 _ H1 _.
    eapply reads_then; [apply ask_category_reads; lia|].
    intros c t2 _ H2 _.
    eapply reads_then; [apply ask_amount_reads; lia|].
    intros x t3 _ H3 _.
    eapply reads_then; [apply reads_input|]. intros e t4 _ H4 _.
    eapply reads_then; [apply reads_method|]. intros.
    apply reads_ret.
  - eapply reads_then; [apply reads_int|]. intros i t0 _ Hi _.
    eapply reads_then; [apply ask_date_reads; lia|].
    intros d t1 _ H1 _.
    eapply reads_then; [apply ask_category_reads; lia|].
    intros c t2 _ H2 _.
    eapply reads_then; [apply ask_amount_reads; lia|].
    intros x t3 _ H3 _.
    eapply reads_then; [apply reads_input|]. intros e t4 _ H4 _.
    eapply reads_then; [apply reads_method|]. intros.
    apply reads_ret.
  - eapply reads_then; [apply reads_int|]. intros.
    eapply reads_then; [apply reads_method|]. intros.
    apply reads_ret.
  - eapply reads_then; [apply reads_input|]. intros.
    eapply reads_then; [apply reads_method|]. intros.
    apply reads_ret.
  - eapply reads_then; [apply reads_method|]. intros.
    apply reads_ret.
  - apply reads_ret.
  - eapply reads_then; [apply reads_say|]. intros.
    apply reads_ret.
Qed.

Lemma turn_reads (fuel : nat) (t : terminal) :
  (length (stdin t) <= fuel)%nat -> reads true (turn fuel) t.
Proof.
  intros Hn. unfold turn.
  apply (reads_bind false true); [apply reads_say_all|]. intros _ t1 _ H1 _.
  apply (reads_bind true false); [apply reads_input|]. intros c t2 _ H2 _.
  apply serve_reads. lia.
Qed.

Lemma menu_reads (fuel : nat) (t : terminal) :
  (length (stdin t) < fuel)%nat -> reads false (menu fuel) t.
Proof.
  revert t. induction fuel as [|n IH]; intros t Hn; [lia|].
  cbn [menu]. eapply reads_then; [apply turn_reads; lia|].
  intros [] t1 _ _ Hlt; [|apply reads_ret].
  apply IH. specialize (Hlt eq_refl). lia.
Qed.

(** ** More fuel changes nothing *)

Lemma extends_refl {A} (m : IO A) : extends m m.
Proof. by intros t r. Qed.

Lemma extends_bind {A B} (m m' : IO A) (k k' : A -> IO B) :
  extends m m' -> (forall a, extends (k a) (k' a)) ->
  extends (io_bind m k) (io_bind m' k').
Proof.
  intros Hm Hk t r. unfold io_bind.
  destruct (m t) as [[[a|x|] t1]|] eqn:E; [| | |done];
    rewrite (Hm _ _ E); [apply Hk|done..].
Qed.

Lemma while_extends {V} (n n' : nat) (cond : V -> IO bool)
    (body : V -> IO V) (v : V) :
  (n <= n')%nat -> extends (while n cond body v) (while n' cond body v).
Proof.
  revert n' v. induction n as [|n IH]; intros n' v Hn; [by intros t r|].
  destruct n' as [|n']; [lia|]. cbn [while].
  apply extends_bind; [apply extends_refl|]. intros [].
  - apply extends_bind; [apply extends_refl|]. intros v'. apply IH. lia.
  - apply extends_refl.
Qed.

Lemma serve_extends (n n' : nat) (choice : pystr) :
  (n <= n')%nat -> extends (serve n choice) (serve n' choice).
Proof.
  intros Hn. unfold serve, ask_date, ask_category, ask_amount.
  repeat case_bool_decide;
    repeat first
      [ apply extends_refl
      | by apply while_extends
      | apply extends_bind; [|intros ?] ].
Qed.

Lemma menu_extends (n n' : nat) :
  (n <= n')%nat -> extends (menu n) (menu n').
Proof.
  revert n'. induction n as [|n IH]; intros n' Hn; [by intros t r|].
  destruct n' as [|n']; [lia|]. cbn [menu]. apply extends_bind.
  - unfold turn. apply extends_bind; [apply extends_refl|]. intros _.
    apply extends_bind; [apply extends_refl|]. intros c.
    apply serve_extends. lia.
  - intros []; [apply IH; lia|apply extends_refl].
Qed.

End Ending.

(** X17: [main] ends on every finite input: its loops never need more
    turns than there are lines to read, so with more fuel than lines it
    has an ending, normal or not, and the same one with any larger
    amount of fuel. *)
Theorem main_ends {RT : Runtime} {BI : Builtins RT} (fuel : nat)
    (t : terminal) :
  (length (stdin t) < fuel)%nat ->
  exists e t',
    main fuel t = Some (e, t')
    /\ forall fuel', (fuel <= fuel')%nat -> main fuel' t = Some (e, t').
Proof.
  intros Hn.
  assert (reads false (main fuel) t) as (e & t' & H & _).
  { unfold main. eapply reads_then; [apply reads_method|].
    intros _ t1 _ Hle _. apply menu_reads. lia. }
  exists e, t'. split; [done|]. intros fuel' Hf. revert H.
  apply extends_bind; [apply extends_refl|]. intros _.
  by apply menu_extends.
Qed.

Lemma main_ends_witness :
  exists e t',
    main 11 (typed sample_input) = Some (e, t')
    /\ forall fuel', (11 <= fuel')%nat ->
                    main fuel' (typed sample_input) = Some (e, t').
Proof.
  apply (main_ends 11 (typed sample_input)). cbn. lia.
Defined.

(** ** What the questions take *)

Section Questions.
Context {RT : Runtime} {BI : Builtins RT}.

(** A loop that asks again while the value is [bad], over lines that
    [parse] reads: the lines that give bad values are read and dropped. *)
Lemma while_drops {V} (cond : V -> IO bool) (body : V -> IO V)
    (bad : V -> bool) (parse : pystr -> option V) (again : pystr)
    (m : list record) (d : option pystr) (rest : list pystr) :
  (forall v t, cond v t = Some (Ends (bad v), t)) ->
  (forall v l ls o x,
     parse l = Some x ->
     body v (Terminal m d (l :: ls) o)
     = Some (Ends x, Terminal m d ls (o ++ [Prompt again]))) ->
  forall (ls : list pystr) (n : nat) (v : V) (o : list shown),
    bad v = true ->
    Forall (fun l => exists y, parse l = Some y /\ bad y = true) ls ->
    exists v' o',
      bad v' = true
      /\ while (length ls + n) cond body v (Terminal m d (ls ++ rest) o)
         = while n cond body v' (Terminal m d rest o').
Proof.
  intros Hc Hb. induction ls as [|l ls IH]; intros n v o Hv Hls.
  - by exists v, o.
  - apply Forall_cons in Hls as [(y & Hy & Hbad) Hls].
    destruct (IH n y (o ++ [Prompt again]) Hbad Hls) as (v' & o' & Hv' & Hw).
    exists v', o'. split; [done|]. rewrite <- Hw.
    cbn [length Nat.add while app]. unfold io_bind at 1.
    rewrite Hc, Hv. unfold io_bind at 1. by rewrite (Hb _ _ _ _ _ Hy).
Qed.

(** The loop stops at the first value that is not bad. *)
Lemma while_takes {V} (cond : V -> IO bool) (body : V -> IO V)
    (bad : V -> bool) (parse : pystr -> option V) (again : pystr)
    (m : list record) (d : option pystr) (rest : list pystr) :
  (forall v t, cond v t = Some (Ends (bad v), t)) ->
  (forall v l ls o x,
     parse l = Some x ->
     body v (Terminal m d (l :: ls) o)
     = Some (Ends x, Terminal m d ls (o ++ [Prompt again]))) ->
  forall (ls : list pystr) (g : pystr) (n : nat) (v x : V) (o : list shown),
    bad v = true ->
    Forall (fun l => exists y, parse l = Some y /\ bad y = true) ls ->
    parse g = Some x -> bad x = false ->
    (length ls + 2 <= n)%nat ->
    exists o',
      while n cond body v (Terminal m d (ls ++ g :: rest) o)
      = Some (Ends x, Terminal m d rest o').
Proof.
  intros Hc Hb ls g n v x o Hv Hls Hg Hx Hn.
  destruct (while_drops cond body bad parse again m d (g :: rest) Hc Hb
              ls (n - length ls) v o Hv Hls) as (v' & o1 & Hv' & Hw).
  replace (length ls + (n - length ls))%nat with n in Hw by lia.
  rewrite Hw. destruct (n - length ls)%nat as [|[|k]] eqn:E; [lia..|].
  eexists. cbn [while]. unfold io_bind at 1. rewrite Hc, Hv'.
  unfold io_bind at 1. rewrite (Hb _ _ _ _ _ Hg).
  unfold io_bind. by rewrite Hc, Hx.
Qed.

Lemma input_eq (prompt l : pystr) (m : list record) (d : option pystr)
    (ls : list pystr) (o : list shown) :
  input prompt (Terminal m d (l :: ls) o)
  = Some (Ends l, Terminal m d ls (o ++ [Prompt prompt])).
Proof. done. Qed.

(** The loop variable read first, then the loop. *)
Lemma first_or_later {V} (cond : V -> IO bool) (body : V -> IO V)
    (bad : V -> bool) (parse : pystr -> option V) (again : pystr)
    (m : list record) (d : option pystr) (rest : list pystr) :
  (forall v t, cond v t = Some (Ends (bad v), t)) ->
  (forall v l ls o x,
     parse l = Some x ->
     body v (Terminal m d (l :: ls) o)
     = Some (Ends x, Terminal m d ls (o ++ [Prompt again]))) ->
  forall (ls : list pystr) (g : pystr) (n : nat) (x : V) (o : list shown)
         (start : IO V) (first : pystr),
    (forall l ls o x,
       parse l = Some x ->
       start (Terminal m d (l :: ls) o)
       = Some (Ends x, Terminal m d ls (o ++ [Prompt first]))) ->
    Forall (fun l => exists y, parse l = Some y /\ bad y = true) ls ->
    parse g = Some x -> bad x = false ->
    (length ls < n)%nat ->
    exists o',
      io_bind start (while n cond body) (Terminal m d (ls ++ g :: rest) o)
      = Some (Ends x, Terminal m d rest o').
Proof.
  intros Hc Hb ls g n x o start first Hs Hls Hg Hx Hn. unfold io_bind at 1.
  destruct ls as [|l ls].
  - cbn [app]. rewrite (Hs _ _ _ _ Hg). destruct n as [|n]; [lia|].
    eexists. cbn [while]. unfold io_bind. by rewrite Hc, Hx.
  - apply Forall_cons in Hls as [(y & Hy & Hbad) Hls].
    cbn [app]. rewrite (Hs _ _ _ _ Hy).
    apply (while_takes cond body bad parse again m d rest Hc Hb ls g n y x);
      try done.
    cbn [length] in Hn. lia.
Qed.

Lemma ask_date_takes (n : nat) (first : pystr) (m : list record)
    (d : option pystr) (ls : list pystr) (g : pystr) (rest : list pystr)
    (o : list shown) :
  Forall (fun l => is_valid_date l = Return false) ls ->
  is_valid_date g = Return true ->
  (length ls < n)%nat ->
  exists o',
    ask_date n first (Terminal m d (ls ++ g :: rest) o)
    = Some (Ends g, Terminal m d rest o').
Proof.
  intros Hls Hg Hn. unfold ask_date.
  apply (first_or_later _ _
           (fun v => match is_valid_date v with
                     | Return ok => bool_decide (ok = false)
                     | Raise _ => false
                     end)
           Some ASK_DATE m d rest) with (first := first); try done.
  - intros v t. unfold io_bind, pure, io_ret.
    by destruct (is_valid_date_returns v) as [ok ->].
  - by intros v l ls' o' x [= ->].
  - by intros l ls' o' x [= ->].
  - eapply List.Forall_impl; [|apply Hls]. intros l Hl. exists l.
    by rewrite Hl.
  - by rewrite Hg.
Qed.

Lemma ask_category_takes (n : nat) (first : pystr) (m : list record)
    (d : option pystr) (ls : list pystr) (g : pystr) (rest : list pystr)
    (o : list shown) :
  Forall (fun l => l <> INCOME /\ l <> EXPENSE) ls ->
  g = INCOME \/ g = EXPENSE ->
  (length ls < n)%nat ->
  exists o',
    ask_category n first (Terminal m d (ls ++ g :: rest) o)
    = Some (Ends g, Terminal m d rest o').
Proof.
  intros Hls Hg Hn. unfold ask_category.
  apply (first_or_later _ _
           (fun c => bool_decide (c <> INCOME) && bool_decide (c <> EXPENSE))
           Some ASK_CATEGORY m d rest) with (first := first); try done.
  - by intros v l ls' o' x [= ->].
  - by intros l ls' o' x [= ->].
  - eapply List.Forall_impl; [|apply Hls]. intros l [H1 H2]. exists l.
    split; [done|]. apply andb_true_iff. by rewrite !bool_decide_eq_true.
  - apply andb_false_iff. rewrite !bool_decide_eq_false.
    destruct Hg as [->| ->]; [left|right]; by intros H.
Qed.

Lemma read_float_eq (prompt l : pystr) (x : pyfloat) (m : list record)
    (d : option pystr) (ls : list pystr) (o : list shown) :
  float_of_str l = Some x ->
  io_bind (input prompt) py_float (Terminal m d (l :: ls) o)
  = Some (Ends x, Terminal m d ls (o ++ [Prompt prompt])).
Proof. intros H. unfold io_bind, py_float, pure. cbn. by rewrite H. Qed.

Lemma ask_amount_takes (n : nat) (first : pystr) (m : list record)
    (d : option pystr) (ls : list pystr) (g : pystr) (x : pyfloat)
    (rest : list pystr) (o : list shown) :
  Forall (fun l => exists y, float_of_str l = Some y
                             /\ float_negative y = true) ls ->
  float_of_str g = Some x -> float_negative x = false ->
  (length ls < n)%nat ->
  exists o',
    ask_amount n first (Terminal m d (ls ++ g :: rest) o)
    = Some (Ends x, Terminal m d rest o').
Proof.
  intros Hls Hg Hx Hn. unfold ask_amount.
  apply (first_or_later _ _ float_negative float_of_str ASK_AMOUNT m d rest)
    with (first := first); try done.
  - intros v l ls' o' y Hy. by apply read_float_eq.
  - intros l ls' o' y Hy. by apply read_float_eq.
Qed.

Lemma read_float_fails (prompt l : pystr) (m : list record)
    (d : option pystr) (ls : list pystr) (o : list shown) :
  float_of_str l = None ->
  io_bind (input prompt) py_float (Terminal m d (l :: ls) o)
  = Some (Fails ValueError, Terminal m d ls (o ++ [Prompt prompt])).
Proof. intros H. unfold io_bind, py_float, pure. cbn. by rewrite H. Qed.

(** An amount that [float] refuses ends the question with
    [ValueError], after the amounts below zero before it. *)
Lemma ask_amount_fails (n : nat) (first : pystr) (m : list record)
    (d : option pystr) (ls : list pystr) (g : pystr) (rest : list pystr)
    (o : list shown) :
  Forall (fun l => exists y, float_of_str l = Some y
                             /\ float_negative y = true) ls ->
  float_of_str g = None ->
  (length ls < n)%nat ->
  exists o',
    ask_amount n first (Terminal m d (ls ++ g :: rest) o)
    = Some (Fails ValueError, Terminal m d rest o').
Proof.
  intros Hls Hg Hn. unfold ask_amount. unfold io_bind at 1.
  destruct ls as [|l ls]; cbn [app].
  { rewrite read_float_fails by done. by eexists. }
  apply Forall_cons in Hls as [(y & Hy & Hbad) Hls].
  rewrite (read_float_eq _ _ y) by done. cbv beta iota.
  destruct (while_drops (fun amount => io_ret (float_negative amount))
              (fun _ => io_bind (input ASK_AMOUNT) (fun s => py_float s))
              float_negative float_of_str ASK_AMOUNT m d (g :: rest)
              ltac:(done) ltac:(intros; by apply read_float_eq)
              ls (n - length ls) y (o ++ [Prompt first]) Hbad Hls)
    as (v' & o1 & Hv' & Hw).
  cbn [length] in Hn.
  replace (length ls + (n - length ls))%nat with n in Hw by lia.
  rewrite Hw. destruct (n - length ls)%nat as [|k] eqn:E; [lia|].
  eexists. cbn [while]. unfold io_bind at 1. unfold io_ret at 1.
  rewrite Hv'. unfold io_bind at 1. by rewrite read_float_fails.
Qed.

Lemma turn_eq (fuel : nat) (m : list record) (f : option pystr)
    (l : pystr) (ls : list pystr) (o : list shown) :
  turn fuel (Terminal m f (l :: ls) o)
  = serve fuel l
      (Terminal m f ls ((o ++ (Line <$> MENU)) ++ [Prompt ASK_CHOICE])).
Proof. unfold turn, io_bind. by rewrite say_all_eq. Qed.

(** The choice ['1'] over answers of which the first accepted ones are
    [d], [c] and [a]: it comes down to one call of [add_record]. *)
Lemma serve_add (fuel : nat) (m : list record) (f : option pystr)
    (o : list shown) (dates : list pystr) (d : pystr)
    (categories : list pystr) (c : pystr) (amounts : list pystr)
    (a : pystr) (x : pyfloat) (desc : pystr) (rest : list pystr) :
  Forall (fun l => is_valid_date l = Return false) dates ->
  is_valid_date d = Return true ->
  Forall (fun l => l <> INCOME /\ l <> EXPENSE) categories ->
  c = INCOME \/ c = EXPENSE ->
  Forall (fun l => exists y, float_of_str l = Some y
                             /\ float_negative y = true) amounts ->
  float_of_str a = Some x -> float_negative x = false ->
  (length dates + length categories + length amounts < fuel)%nat ->
  exists out,
    serve fuel [49]
      (Terminal m f
         (dates ++ d :: categories ++ c :: amounts ++ a :: desc :: rest) o)
    = io_bind (method (add_record d c (Float x) desc))
        (fun _ => io_ret true) (Terminal m f rest out).
Proof.
  intros Hds Hd Hcs Hc Has Ha Hx Hn.
  unfold serve. rewrite bool_decide_eq_true_2 by done.
  unfold io_bind at 1.
  destruct (ask_date_takes fuel ASK_DATE m f dates d
              (categories ++ c :: amounts ++ a :: desc :: rest) o Hds Hd)
    as [o1 ->]; [lia|].
  unfold io_bind at 1.
  destruct (ask_category_takes fuel ASK_CATEGORY m f categories c
              (amounts ++ a :: desc :: rest) o1 Hcs Hc) as [o2 ->]; [lia|].
  unfold io_bind at 1.
  destruct (ask_amount_takes fuel ASK_AMOUNT m f amounts a x
              (desc :: rest) o2 Has Ha Hx) as [o3 ->]; [lia|].
  unfold io_bind at 1. rewrite input_eq. by eexists.
Qed.

End Questions.

(** X18: at the choice ['1'] every question is asked until its answer is
    accepted: the dates [is_valid_date] refuses, the categories other
    than the two words and the amounts below zero are read and dropped,
    and the turn comes down to the call of [add_record] with the first
    accepted date, category and amount and with the next line as
    description, on the tracker as it was; the lines after the
    description are left to read, and the loop goes on. *)
Theorem add_takes_first_accepted {RT : Runtime} {BI : Builtins RT}
    (fuel : nat) (t : terminal) (dates : list pystr) (d : pystr)
    (categories : list pystr) (c : pystr) (amounts : list pystr)
    (a : pystr) (x : pyfloat) (desc : pystr) (rest : list pystr) :
  stdin t
  = [49] :: dates ++ d :: categories ++ c :: amounts ++ a :: desc :: rest ->
  Forall (fun l => is_valid_date l = Return false) dates ->
  is_valid_date d = Return true ->
  Forall (fun l => l <> INCOME /\ l <> EXPENSE) categories ->
  c = INCOME \/ c = EXPENSE ->
  Forall (fun l => exists y, float_of_str l = Some y
                             /\ float_negative y = true) amounts ->
  float_of_str a = Some x -> float_negative x = false ->
  (length (stdin t) <= fuel)%nat ->
  exists out,
    turn fuel t
    = io_bind (method (add_record d c (Float x) desc))
        (fun _ => io_ret true)
        (Terminal (memory t) (disk t) rest out).
Proof.
  intros Hin Hds Hd Hcs Hc Has Ha Hx Hn.
  destruct t as [m f s o]. cbn [stdin memory disk] in *. subst s.
  repeat first [rewrite length_app in Hn | progress cbn [length] in Hn].
  rewrite turn_eq. apply serve_add; try done. lia.
Qed.

Lemma add_takes_first_accepted_witness :
  exists out,
    turn 10 (typed_loaded sample_input)
    = io_bind (method (add_record (utf8 "2024-02-29") INCOME
                                  (Float (Dec 125 1)) (utf8 "bonus")))
        (fun _ => io_ret true)
        (Terminal sample_ledger (Some (serialize sample_ledger))
                  [utf8 "5"; utf8 "6"] out).
Proof.
  apply (add_takes_first_accepted 10 (typed_loaded sample_input)
           [utf8 "2024-02-30"] (utf8 "2024-02-29")
           [utf8 "доход"] INCOME [utf8 "-3"] (utf8 "12.5") (Dec 125 1)
           (utf8 "bonus") [utf8 "5"; utf8 "6"]).
  - reflexivity.
  - by repeat constructor.
  - reflexivity.
  - repeat constructor; intros H; by vm_compute in H.
  - by left.
  - repeat constructor. exists (Dec (-3) 0). by split.
  - reflexivity.
  - reflexivity.
  - cbn. lia.
Defined.

(** X19: an amount that [float] cannot read ends the program: at the
    choice ['1'], after an accepted date and category, the [ValueError]
    of [float] leaves the loop of [main]; the record is not added, the
    records and the file are as they were, and the lines after the amount
    are not read. *)
Theorem bad_amount_ends_menu {RT : Runtime} {BI : Builtins RT}
    (fuel : nat) (t : terminal) (dates : list pystr) (d : pystr)
    (categories : list pystr) (c : pystr) (amounts : list pystr)
    (a : pystr) (rest : list pystr) :
  stdin t = [49] :: dates ++ d :: categories ++ c :: amounts ++ a :: rest ->
  Forall (fun l => is_valid_date l = Return false) dates ->
  is_valid_date d = Return true ->
  Forall (fun l => l <> INCOME /\ l <> EXPENSE) categories ->
  c = INCOME \/ c = EXPENSE ->
  Forall (fun l => exists y, float_of_str l = Some y
                             /\ float_negative y = true) amounts ->
  float_of_str a = None ->
  (length (stdin t) <= fuel)%nat ->
  exists out,
    menu (S fuel) t
    = Some (Fails ValueError, Terminal (memory t) (disk t) rest out).
Proof.
  intros Hin Hds Hd Hcs Hc Has Ha Hn.
  destruct t as [m f s o]. cbn [stdin memory disk] in *. subst s.
  repeat first [rewrite length_app in Hn | progress cbn [length] in Hn].
  cbn [menu]. unfold io_bind at 1. rewrite turn_eq.
  unfold serve. rewrite bool_decide_eq_true_2 by done.
  unfold io_bind at 1.
  destruct (ask_date_takes fuel ASK_DATE m f dates d
              (categories ++ c :: amounts ++ a :: rest)
              ((o ++ (Line <$> MENU)) ++ [Prompt ASK_CHOICE]) Hds Hd)
    as [o1 ->]; [lia|].
  unfold io_bind at 1.
  destruct (ask_category_takes fuel ASK_CATEGORY m f categories c
              (amounts ++ a :: rest) o1 Hcs Hc) as [o2 ->]; [lia|].
  unfold io_bind at 1.
  destruct (ask_amount_fails fuel ASK_AMOUNT m f amounts a rest o2 Has Ha)
    as [o3 ->]; [lia|].
  by eexists.
Qed.

Lemma bad_amount_ends_menu_witness :
  exists out,
    menu 6 (typed_loaded [utf8 "1"; utf8 "2024-02-29"; utf8 "Расход";
                          utf8 "12,5"; utf8 "lunch"])
    = Some (Fails ValueError,
            Terminal sample_ledger (Some (serialize sample_ledger))
                     [utf8 "lunch"] out).
Proof.
  apply (bad_amount_ends_menu 5
           (typed_loaded [utf8 "1"; utf8 "2024-02-29"; utf8 "Расход";
                          utf8 "12,5"; utf8 "lunch"])
           [] (utf8 "2024-02-29") [] EXPENSE [] (utf8 "12,5")
           [utf8 "lunch"]).
  - reflexivity.
  - constructor.
  - reflexivity.
  - constructor.
  - by right.
  - constructor.
  - reflexivity.
  - cbn. lia.
Defined.

(** X20: the questions of the menu let an empty description through,
    and the program cannot be started again after it: when the choice
    ['1'] is answered with an accepted date, category and amount and with
    a description that is empty or white space only, the record is added
    and saved, and every later run of [main] on the file ends with
    [IndexError] while the tracker is built, before the menu is shown and
    before a line is read. *)
Theorem blank_description_locks_out {RT : Runtime} {BI : Builtins RT}
    (fuel : nat) (t : terminal) (d c a : pystr) (x : pyfloat)
    (desc : pystr) (rest : list pystr) :
  stdin t = [49] :: d :: c :: a :: desc :: rest ->
  Forall well_formed (memory t) ->
  is_valid_date d = Return true -> plain d = true ->
  c = INCOME \/ c = EXPENSE ->
  float_of_str a = Some x -> float_negative x = false -> prints_back x ->
  blank desc = true ->
  (4 <= fuel)%nat ->
  exists t1,
    turn fuel t = Some (Ends true, t1)
    /\ memory t1 = memory t ++ [Rec d c (Float x) desc]
    /\ stdin t1 = rest
    /\ forall fuel' t2,
         disk t2 = disk t1 ->
         main fuel' t2
         = Some (Fails IndexError,
                 Terminal (memory t) (disk t1) (stdin t2) (stdout t2 ++ [])).
Proof.
  intros Hin Hm Hd Hp Hc Ha Hx Hpx Hb Hn.
  destruct t as [m f s o]. cbn [stdin memory] in *. subst s.
  rewrite turn_eq.
  destruct (serve_add fuel m f
              ((o ++ (Line <$> MENU)) ++ [Prompt ASK_CHOICE])
              [] d [] c [] a x desc rest) as [out Hs]; try done.
  { cbn [length]. lia. }
  cbn [app] in Hs. rewrite Hs.
  exists (Terminal (m ++ [Rec d c (Float x) desc])
                   (Some (serialize (m ++ [Rec d c (Float x) desc])))
                   rest (out ++ [])).
  split; [done|]. cbn [memory disk stdin]. split; [done|].
  split; [done|]. intros fuel' t2 Ht2.
  unfold main, io_bind, method. rewrite Ht2.
  rewrite (init_blank_description m [] (memory t2) (Rec d c (Float x) desc) []);
    try done.
  by exists x.
Qed.

Lemma blank_description_locks_out_witness :
  exists t1,
    turn 4 (typed_loaded [utf8 "1"; utf8 "2024-02-29"; utf8 "Расход";
                          utf8 "9"; []])
    = Some (Ends true, t1)
    /\ memory t1
       = sample_ledger
         ++ [Rec (utf8 "2024-02-29") EXPENSE (Float (Dec 9 0)) []]
    /\ stdin t1 = []
    /\ forall fuel' t2,
         disk t2 = disk t1 ->
         main fuel' t2
         = Some (Fails IndexError,
                 Terminal sample_ledger (disk t1) (stdin t2)
                          (stdout t2 ++ [])).
Proof.
  apply (blank_description_locks_out 4
           (typed_loaded [utf8 "1"; utf8 "2024-02-29"; utf8 "Расход";
                          utf8 "9"; []])
           (utf8 "2024-02-29") EXPENSE (utf8 "9") (Dec 9 0) [] []).
  - reflexivity.
  - unfold typed_loaded, sample_ledger. cbn [memory].
    well_formed_by_evaluation.
  - reflexivity.
  - reflexivity.
  - by right.
  - reflexivity.
  - reflexivity.
  - split; vm_compute; reflexivity.
  - reflexivity.
  - lia.
Defined.
